(** * digitloom: a shallow embedding of the digit generators, the chunk
    container codec, the encryption envelope and the verification oracle.

    Python integers are unbounded, so they are modelled by [Z]; [//] on
    integers is floor division, which is [Z.div].  A Python [str] is a
    [string], a [bytes] value is a [list byte].  A call either returns a
    value, raises an exception, or (for the loops whose termination is not
    structural) exhausts the fuel it was given. *)

From Stdlib Require Import ZArith List Lia Bool String Ascii.
From Stdlib.Strings Require Import Byte.
From Stdlib Require Import DecimalString.
Import ListNotations.

Local Open Scope string_scope.
Local Open Scope list_scope.
Local Open Scope Z_scope.

(** ** Outcomes of a call *)

Inductive exn : Type :=
| ValueError (msg : string)
| ZeroDivisionError
| OverflowError
| RecursionError
| KeyError (key : string)
| AttributeError
| TypeError
| DecimalOverflow
| DecimalDivisionByZero
| DecimalInvalidOperation
| InvalidTag
| IndexError
| StructError
| ExternalError.

Inductive res (A : Type) : Type :=
| Ok (a : A)
| Raise (e : exn)
| OutOfFuel.

Arguments Ok {A} a.
Arguments Raise {A} e.
Arguments OutOfFuel {A}.

Definition bind {A B : Type} (m : res A) (f : A -> res B) : res B :=
  match m with
  | Ok a => f a
  | Raise e => Raise e
  | OutOfFuel => OutOfFuel
  end.

Notation "x <- m ;; k" := (bind m (fun x => k))
  (at level 61, m at next level, right associativity).
Notation "' p <- m ;; k" := (bind m (fun p => k))
  (at level 61, p pattern, m at next level, right associativity).

Definition raises {A : Type} (m : res A) : Prop := exists e, m = Raise e.

(** [str(n)] for a Python integer. *)
Definition str_of_int (n : Z) : string := NilZero.string_of_int (Z.to_int n).

(** ** constants.py: the spigot generator *)

Module Spigot.

Record state : Type := mkState { q : Z; r : Z; t : Z; k : Z; n : Z; l : Z }.

Definition init : state := mkState 1 0 1 1 3 3.

(** Floor division as Python performs it: a zero divisor raises. *)
Definition floordiv (a b : Z) : res Z :=
  if b =? 0 then Raise ZeroDivisionError else Ok (a / b).

(** One iteration of the [while True] body of [pi_digits_spigot]: the digit
    yielded in this iteration (if any) and the state after the tuple
    assignment. *)
Definition step (s : state) : res (option Z * state) :=
  if 4 * q s + r s - t s <? n s * t s then
    n' <- floordiv (10 * (3 * q s + r s)) (t s) ;;
    Ok (Some (n s),
        mkState (10 * q s) (10 * (r s - n s * t s)) (t s) (k s)
                (n' - 10 * n s) (l s))
  else
    n' <- floordiv (q s * (7 * k s + 2) + r s * l s) (t s * l s) ;;
    Ok (None,
        mkState (q s * k s) ((2 * q s + r s) * l s) (t s * l s) (k s + 1)
                n' (l s + 2)).

(** [next(g)]: iterate the body until a digit is yielded. *)
Fixpoint next (fuel : nat) (s : state) : res (Z * state) :=
  match fuel with
  | O => OutOfFuel
  | S fuel' =>
      '(o, s') <- step s ;;
      match o with
      | Some d => Ok (d, s')
      | None => next fuel' s'
      end
  end.

(** [count] successive calls of [next(g)]. *)
Fixpoint take (fuel : nat) (count : nat) (s : state) : res (list Z * state) :=
  match count with
  | O => Ok ([], s)
  | S count' =>
      '(d, s1) <- next fuel s ;;
      '(ds, s2) <- take fuel count' s1 ;;
      Ok (d :: ds, s2)
  end.

Definition pi_digits_spigot (fuel : nat) (count : nat) : res (list Z) :=
  '(ds, _) <- take fuel count init ;; Ok ds.

(** [format_spigot_pi(prefix_digits)]. *)
Definition format_spigot_pi (fuel : nat) (prefix_digits : Z) : res string :=
  if prefix_digits <? 1 then Raise (ValueError "prefix_digits must be >= 1")
  else
    '(first, s1) <- next fuel init ;;
    '(rest, _) <- take fuel (Z.to_nat (prefix_digits - 1)) s1 ;;
    Ok (String.concat "" (str_of_int first :: "." :: map str_of_int rest)).

(** States the generator can be in at the top of its loop. *)
Inductive reachable : state -> Prop :=
| reach_init : reachable init
| reach_step s o s' : reachable s -> step s = Ok (o, s') -> reachable s'.

Definition pi_50 : string :=
  "3.14159265358979323846264338327950288419716939937510".

Definition first_51 : list Z :=
  [3;1;4;1;5;9;2;6;5;3;5;8;9;7;9;3;2;3;8;4;6;2;6;4;3;3;8;3;2;7;9;5;0;2;8;8;
   4;1;9;7;1;6;9;3;9;9;3;7;5;1;0].

(** The invariant that keeps both divisors non-zero. *)
Definition positive_state (s : state) : Prop :=
  1 <= q s /\ 1 <= t s /\ 3 <= l s /\ 1 <= k s.

End Spigot.

(** ** Binary floating point: rounding a rational to nearest, ties to even *)

Module Binary.

(** floor (log2 (a / d)) for positive [a] and [d]. *)
Definition ilog2_rat (a d : Z) : Z :=
  let L := Z.log2 a - Z.log2 d in
  if d * 2 ^ Z.max 0 L <=? a * 2 ^ Z.max 0 (- L) then L else L - 1.

(** [a / d] (both positive) rounded to [prec] significant bits, as a pair
    [(m, e)] standing for [m * 2^e]; [min_exp], when given, is the smallest
    exponent the format has (gradual underflow). *)
Definition round (prec : Z) (min_exp : option Z) (a d : Z) : Z * Z :=
  let e0 := ilog2_rat a d - (prec - 1) in
  let e := match min_exp with Some lo => Z.max e0 lo | None => e0 end in
  let num := a * 2 ^ Z.max 0 (- e) in
  let den := d * 2 ^ Z.max 0 e in
  let q := num / den in
  let rem := num mod den in
  let m := if (den <? 2 * rem) || ((2 * rem =? den) && Z.odd q)
           then q + 1 else q in
  (m, e).

End Binary.

(** ** Python [float]: IEEE 754 binary64 *)

Module Float.

(** A finite double is [fm * 2 ^ fe]. *)
Record fin : Type := mkFin { fm : Z; fe : Z }.

Inductive float : Type :=
| Finite (x : fin)
| Inf (negative : bool).

(** The double nearest to the rational [n / d] ([d] positive). *)
Definition round_rat (n d : Z) : float :=
  if n =? 0 then Finite (mkFin 0 0)
  else
    let '(m, e) := Binary.round 53 (Some (-1074)) (Z.abs n) d in
    if 2 ^ 1024 <=? m * 2 ^ e then Inf (n <? 0)
    else Finite (mkFin (Z.sgn n * m) e).

(** [float(n)] for an integer [n]. *)
Definition of_int (n : Z) : res fin :=
  match round_rat n 1 with
  | Finite x => Ok x
  | Inf _ => Raise OverflowError
  end.

(** [x / y] on floats. *)
Definition div (x y : fin) : res float :=
  if fm y =? 0 then Raise ZeroDivisionError
  else
    let s := Z.sgn (fm y) in
    Ok (round_rat (s * fm x * 2 ^ Z.max 0 (fe x - fe y))
                  (Z.abs (fm y) * 2 ^ Z.max 0 (fe y - fe x))).

(** [x * y] on floats. *)
Definition mul (x y : fin) : float :=
  round_rat (fm x * fm y * 2 ^ Z.max 0 (fe x + fe y))
            (2 ^ Z.max 0 (- (fe x + fe y))).

(** [int(x)]: truncation towards zero. *)
Definition to_int (x : float) : res Z :=
  match x with
  | Finite x => Ok (Z.quot (fm x * 2 ^ Z.max 0 (fe x)) (2 ^ Z.max 0 (- fe x)))
  | Inf _ => Raise OverflowError
  end.

(** [math.ceil(x)]. *)
Definition ceil (x : float) : res Z :=
  match x with
  | Finite x => Ok (- ((- (fm x * 2 ^ Z.max 0 (fe x))) / 2 ^ Z.max 0 (- fe x)))
  | Inf _ => Raise OverflowError
  end.

(** A decimal literal [n / 10^k] of the source text. *)
Definition literal (n : Z) (k : Z) : fin :=
  match round_rat n (10 ^ k) with
  | Finite x => x
  | Inf _ => mkFin 0 0
  end.

End Float.

(** ** Python [decimal.Decimal] in the default context with a chosen [prec]

    Rounding is ROUND_HALF_EVEN, Emax = 999999, Emin = -999999, and Overflow
    and DivisionByZero are trapped (raised). *)

Module Dec.

(** sign, coefficient (non-negative), exponent. *)
Record t : Type := mk { sign : bool; coeff : Z; exp : Z }.

Definition Emax : Z := 999999.
Definition Emin : Z := -999999.

(** Number of decimal digits of the coefficient: [len(self._int)]. *)
Definition ndigits (c : Z) : Z := Z.of_nat (String.length (str_of_int c)).

(** [Decimal(n)] for an integer: exact. *)
Definition of_int (n : Z) : t := mk (n <? 0) (Z.abs n) 0.

(** Divide by [10^k] rounding half to even. *)
Definition round_half_even (c k : Z) : Z :=
  let d := 10 ^ k in
  let q := c / d in
  let rem := c mod d in
  if (d <? 2 * rem) || ((2 * rem =? d) && Z.odd q) then q + 1 else q.

(** [_fix]: round to [prec] digits and check the exponent range. *)
Definition fix_ (prec : Z) (x : t) : res t :=
  let Etiny := Emin - prec + 1 in
  let Etop := Emax - prec + 1 in
  if coeff x =? 0 then
    Ok (mk (sign x) 0 (Z.min (Z.max (exp x) Etiny) Emax))
  else
    let exp_min := ndigits (coeff x) + exp x - prec in
    if Etop <? exp_min then Raise DecimalOverflow
    else
      let exp_min := Z.max exp_min Etiny in
      if exp x <? exp_min then
        let c := round_half_even (coeff x) (exp_min - exp x) in
        let '(c, exp_min) :=
          if prec <? ndigits c then (c / 10, exp_min + 1) else (c, exp_min) in
        if Etop <? exp_min then Raise DecimalOverflow
        else Ok (mk (sign x) c exp_min)
      else Ok x.

Definition mul (prec : Z) (x y : t) : res t :=
  fix_ prec (mk (xorb (sign x) (sign y)) (coeff x * coeff y) (exp x + exp y)).

(** The exact-quotient loop of [__truediv__]: strip trailing zeros while the
    exponent is below the ideal one. *)
Fixpoint strip_zeros (n : nat) (c e ideal : Z) : Z * Z :=
  match n with
  | O => (c, e)
  | S n' =>
      if (e <? ideal) && (c mod 10 =? 0) then strip_zeros n' (c / 10) (e + 1) ideal
      else (c, e)
  end.

Definition div (prec : Z) (x y : t) : res t :=
  let s := xorb (sign x) (sign y) in
  if coeff y =? 0 then Raise DecimalDivisionByZero
  else if coeff x =? 0 then fix_ prec (mk s 0 (exp x - exp y))
  else
    let shift := ndigits (coeff y) - ndigits (coeff x) + prec + 1 in
    let e := exp x - exp y - shift in
    let n := coeff x * 10 ^ Z.max 0 shift in
    let d := coeff y * 10 ^ Z.max 0 (- shift) in
    let c := n / d in
    let '(c, e) :=
      if n mod d =? 0 then strip_zeros (Z.to_nat shift) c e (exp x - exp y)
      else ((if c mod 5 =? 0 then c + 1 else c), e) in
    fix_ prec (mk s c e).

(** [sqrt] of a positive value. *)
Definition sqrt (prec : Z) (x : t) : res t :=
  if coeff x =? 0 then fix_ prec (mk (sign x) 0 (exp x / 2))
  else if sign x then Raise DecimalInvalidOperation
  else
    let prec1 := prec + 1 in
    let e := exp x / 2 in
    let odd := Z.odd (exp x) in
    let c := if odd then coeff x * 10 else coeff x in
    let l := if odd then ndigits (coeff x) / 2 + 1
             else (ndigits (coeff x) + 1) / 2 in
    let shift := prec1 - l in
    let c' := if 0 <=? shift then c * 100 ^ shift else c / 100 ^ (- shift) in
    let exact0 := if 0 <=? shift then true else c mod 100 ^ (- shift) =? 0 in
    let e := e - shift in
    let n := Z.sqrt c' in
    if exact0 && (n * n =? c') then
      let n := if 0 <=? shift then n / 10 ^ shift else n * 10 ^ (- shift) in
      fix_ prec (mk false n (e + shift))
    else
      fix_ prec (mk false (if n mod 5 =? 0 then n + 1 else n) e).

(** ["0" * n]. *)
Fixpoint zeros (n : nat) : string :=
  match n with O => "" | S n' => String "0" (zeros n') end.

(** [format(x, "f")]. *)
Definition format_f (x : t) : string :=
  let digits := str_of_int (coeff x) in
  let len := Z.of_nat (String.length digits) in
  let dotplace := exp x + len in
  let '(intpart, fracpart) :=
    if dotplace <? 0 then ("0", (zeros (Z.to_nat (- dotplace)) ++ digits)%string)
    else if len <? dotplace
    then ((digits ++ zeros (Z.to_nat (dotplace - len)))%string, "")
    else
      let ip := substring 0 (Z.to_nat dotplace) digits in
      ((if String.eqb ip "" then "0" else ip),
       substring (Z.to_nat dotplace) (String.length digits) digits) in
  ((if sign x then "-" else "") ++ intpart ++
   (if String.eqb fracpart "" then "" else "." ++ fracpart))%string.

End Dec.

(** ** Helpers shared by the modules below *)

(** [f] applied to every element in order; the first exception wins. *)
Fixpoint mapM {A B : Type} (f : A -> res B) (xs : list A) : res (list B) :=
  match xs with
  | [] => Ok []
  | x :: xs' => y <- f x ;; ys <- mapM f xs' ;; Ok (y :: ys)
  end.

(** [range(lo, hi)]. *)
Definition zrange (lo hi : Z) : list Z :=
  map (fun i => lo + Z.of_nat i) (seq 0 (Z.to_nat (hi - lo))).

(** [s.split(".", 1)] when [s] contains a dot. *)
Fixpoint partition_dot (s : string) : option (string * string) :=
  match s with
  | EmptyString => None
  | String c rest =>
      if Ascii.eqb c "." then Some (EmptyString, rest)
      else match partition_dot rest with
           | Some (h, t) => Some (String c h, t)
           | None => None
           end
  end.

(** ** chudnovsky.py *)

Module Chudnovsky.

Definition _A : Z := 13591409.
Definition _B : Z := 545140134.
Definition _C : Z := 640320.
Definition _C3_OVER_24 : Z := (_C ^ 3) / 24.

Record _BSTuple : Type := mkBS { p : Z; q : Z; t : Z }.

(** The [b - a == 1] branch of [_bs]. *)
Definition _bs_leaf (a : Z) : _BSTuple :=
  if a =? 0 then mkBS 1 1 _A
  else
    let k := a in
    let p := (6 * k - 5) * (2 * k - 1) * (6 * k - 1) in
    let q := k * k * k * _C3_OVER_24 in
    let t := p * (_A + _B * k) in
    let t := if negb (Z.land k 1 =? 0) then - t else t in
    mkBS p q t.

(** [_bs] with a bound on the recursion depth. *)
Fixpoint _bs_rec (depth : nat) (a b : Z) : res _BSTuple :=
  match depth with
  | O => OutOfFuel
  | S depth' =>
      if b - a =? 1 then Ok (_bs_leaf a)
      else
        let m := (a + b) / 2 in
        left <- _bs_rec depth' a m ;;
        right <- _bs_rec depth' m b ;;
        Ok (mkBS (p left * p right)
                 (q left * q right)
                 (t left * q right + p left * t right))
  end.

(** [_bs(a, b)].  A range of [b - a >= 1] terms needs depth at most [b - a];
    for [b <= a] the Python recursion never reaches its base case, which the
    model reports as [OutOfFuel]. *)
Definition _bs (a b : Z) : res _BSTuple := _bs_rec (Z.to_nat (b - a)) a b.

Definition _combine (acc nxt : _BSTuple) : _BSTuple :=
  mkBS (p acc * p nxt) (q acc * q nxt) (t acc * q nxt + p acc * t nxt).

Definition _bs_range (ab : Z * Z) : res _BSTuple := _bs (fst ab) (snd ab).

(** [int(digits_after_point / 14.181647462725477) + 2]. *)
Definition term_count (digits_after_point : Z) : res Z :=
  fd <- Float.of_int digits_after_point ;;
  x <- Float.div fd (Float.literal 14181647462725477 15) ;;
  n <- Float.to_int x ;;
  Ok (n + 2).

(** The [bounds] list and the [ranges] built from it. *)
Definition bounds (terms chunk_count : Z) : list Z :=
  0 :: map (fun i => (terms * i) / chunk_count) (zrange 1 (chunk_count + 1)).

Definition ranges (terms chunk_count : Z) : list (Z * Z) :=
  let bounds := bounds terms chunk_count in
  map (fun i => (nth (Z.to_nat i) bounds 0, nth (Z.to_nat (i + 1)) bounds 0))
      (zrange 0 chunk_count).

(** The partitioned computation: [ex.map] returns the chunk results in the
    order of [ranges]; they are folded from the left with [_combine]. *)
Definition bs_parallel (terms workers : Z) : res _BSTuple :=
  let chunk_count := Z.min workers terms in
  chunks <- mapM _bs_range (ranges terms chunk_count) ;;
  Ok (fold_left _combine chunks (mkBS 1 1 0)).

(** Everything after [bs] is known: the Decimal evaluation and the string
    surgery. *)
Definition render (digits_after_point : Z) (bs : _BSTuple) : res string :=
  let prec := digits_after_point + 20 in
  let dq := Dec.of_int (q bs) in
  let dt := Dec.of_int (t bs) in
  root <- Dec.sqrt prec (Dec.of_int 10005) ;;
  x <- Dec.mul prec (Dec.of_int 426880) root ;;
  y <- Dec.mul prec x dq ;;
  pi <- Dec.div prec y dt ;;
  let s := Dec.format_f pi in
  let s := match partition_dot s with
           | Some _ => s
           | None => (s ++ ".")%string
           end in
  let '(head, tail) :=
    match partition_dot s with Some ht => ht | None => (s, "") end in
  let n := Z.of_nat (String.length tail) in
  let tail :=
    if n <? digits_after_point
    then (tail ++ Dec.zeros (Z.to_nat (digits_after_point - n)))%string
    else substring 0 (Z.to_nat digits_after_point) tail in
  Ok (head ++ "." ++ tail)%string.

Definition chudnovsky_pi_decimal_string (digits_after_point workers : Z)
  : res string :=
  if digits_after_point <? 0
  then Raise (ValueError "digits_after_point must be >= 0")
  else if workers <? 1 then Raise (ValueError "workers must be >= 1")
  else
    terms <- term_count digits_after_point ;;
    bs <- (if (workers =? 1) || (terms <? 2000) then _bs 0 terms
           else bs_parallel terms workers) ;;
    render digits_after_point bs.

(** The unit of [_combine], and the terms [a, a+1, ..., a+n-1] combined from
    left to right: what a range is meant to evaluate to. *)
Definition bs_unit : _BSTuple := mkBS 1 1 0.

Fixpoint prod_range (a : Z) (n : nat) : _BSTuple :=
  match n with
  | O => bs_unit
  | S n' => _combine (_bs_leaf a) (prod_range (a + 1) n')
  end.

Definition PI_80 : string :=
  "3.14159265358979323846264338327950288419716939937510582097494459230781640628620899".

End Chudnovsky.

(** ** mpmath's [mpf]: binary floating point at a chosen precision

    Every arithmetic operation returns the exact result rounded to [prec]
    bits (round to nearest, ties to even); there is no exponent range. *)

Module Mpf.

(** The value [man * 2 ^ ex]. *)
Record t : Type := mk { man : Z; ex : Z }.

Definition round_rat (prec : Z) (n d : Z) : t :=
  if n =? 0 then mk 0 0
  else let '(m, e) := Binary.round prec None (Z.abs n) d in mk (Z.sgn n * m) e.

(** Numerator and denominator of the exact value. *)
Definition num (x : t) : Z := man x * 2 ^ Z.max 0 (ex x).
Definition den (x : t) : Z := 2 ^ Z.max 0 (- ex x).

(** [mp.mpf(n)] for an integer. *)
Definition of_int (prec : Z) (n : Z) : t := round_rat prec n 1.

Definition add (prec : Z) (x y : t) : t :=
  round_rat prec (num x * den y + num y * den x) (den x * den y).

Definition sub (prec : Z) (x y : t) : t :=
  round_rat prec (num x * den y - num y * den x) (den x * den y).

(** [n * x] for an integer [n]. *)
Definition mul_int (prec : Z) (n : Z) (x : t) : t :=
  round_rat prec (n * num x) (den x).

(** [x / n] for an integer [n]. *)
Definition div_int (prec : Z) (x : t) (n : Z) : res t :=
  if n =? 0 then Raise ZeroDivisionError
  else Ok (round_rat prec (Z.sgn n * num x) (Z.abs n * den x)).

Definition floor_int (x : t) : Z := num x / den x.

(** [mp.floor(x)]. *)
Definition floor (prec : Z) (x : t) : t := of_int prec (floor_int x).

(** [x % 1]. *)
Definition mod1 (prec : Z) (x : t) : t :=
  round_rat prec (num x mod den x) (den x).

(** [x < y]. *)
Definition ltb (x y : t) : bool := num x * den y <? num y * den x.

End Mpf.

(** Indexing a string as Python does: negative indices count from the end. *)
Definition str_index (s : string) (i : Z) : res ascii :=
  let len := Z.of_nat (String.length s) in
  let j := if i <? 0 then i + len else i in
  if (j <? 0) || (len <=? j) then Raise IndexError
  else match String.get (Z.to_nat j) s with
       | Some c => Ok c
       | None => Raise IndexError
       end.

Definition string_of_chars (cs : list ascii) : string :=
  fold_right String EmptyString cs.

(** ** bbp.py *)

Module Bbp.

(** [int(math.log2(n + 1))] is the integer part of the base-2 logarithm; the
    double returned by [math.log2] cannot reach the next integer as long as
    [n + 1 < 2^47], which covers every position this development evaluates. *)
Definition _prec_bits (n : Z) : Z :=
  if n <? 1 then 128 else Z.max 128 (Z.log2 (n + 1) + 128).

(** The [for k in range(n + 1)] loop of [_series]. *)
Fixpoint head_sum (prec j n : Z) (ks : list Z) (s : Mpf.t) : res Mpf.t :=
  match ks with
  | [] => Ok s
  | k :: ks' =>
      let r := 8 * k + j in
      x <- Mpf.div_int prec (Mpf.of_int prec ((16 ^ (n - k)) mod r)) r ;;
      let s := Mpf.add prec s x in
      let s := Mpf.sub prec s (Mpf.floor prec s) in
      head_sum prec j n ks' s
  end.

(** The [while True] loop of [_series]. *)
Fixpoint tail_sum (fuel : nat) (prec j k : Z) (pow16 eps t : Mpf.t)
  : res Mpf.t :=
  match fuel with
  | O => OutOfFuel
  | S fuel' =>
      let r := 8 * k + j in
      term <- Mpf.div_int prec pow16 r ;;
      if Mpf.ltb term eps then Ok t
      else
        let t := Mpf.add prec t term in
        pow16' <- Mpf.div_int prec pow16 16 ;;
        tail_sum fuel' prec j (k + 1) pow16' eps t
  end.

(** [_series(j, n, prec)]; the tail loop divides [pow16] by 16 in every
    round, so [prec] rounds are a generous budget. *)
Definition _series (j n prec : Z) : res Mpf.t :=
  s <- head_sum prec j n (zrange 0 (n + 1)) (Mpf.of_int prec 0) ;;
  pow16 <- Mpf.div_int prec (Mpf.of_int prec 1) 16 ;;
  let eps := Mpf.mk 1 (- prec + 16) in
  t <- tail_sum (Z.to_nat prec) prec j (n + 1) pow16 eps (Mpf.of_int prec 0) ;;
  Ok (Mpf.mod1 prec (Mpf.add prec s t)).

Definition pi_hex_digit (n : Z) : res Z :=
  if n <? 0 then Raise (ValueError "n must be >= 0")
  else
    let prec := _prec_bits n in
    s1 <- _series 1 n prec ;;
    s4 <- _series 4 n prec ;;
    s5 <- _series 5 n prec ;;
    s6 <- _series 6 n prec ;;
    let x := Mpf.sub prec
               (Mpf.sub prec
                  (Mpf.sub prec (Mpf.mul_int prec 4 s1) (Mpf.mul_int prec 2 s4))
                  s5)
               s6 in
    let x := Mpf.mod1 prec x in
    Ok (Mpf.floor_int (Mpf.floor prec (Mpf.mul_int prec 16 x))).

Definition pi_hex_digits (start count : Z) : res string :=
  if start <? 0 then Raise (ValueError "start must be >= 0")
  else if count <? 0 then Raise (ValueError "count must be >= 0")
  else
    let alphabet := "0123456789ABCDEF" in
    cs <- mapM (fun i => d <- pi_hex_digit (start + i) ;; str_index alphabet d)
               (zrange 0 count) ;;
    Ok (string_of_chars cs).

(** The digits of 243F6A8885A308D3. *)
Definition hex_prefix : list Z := [2;4;3;15;6;10;8;8;8;5;10;3;0;8;13;3].

End Bbp.

(** ** Bytes, text and dictionaries *)

Definition bytes : Type := list byte.

Definition byte_of_Z (z : Z) : byte :=
  match Byte.of_N (Z.to_N (z mod 256)) with
  | Some b => b
  | None => x00
  end.

Definition Z_of_byte (b : byte) : Z := Z.of_N (Byte.to_N b).

(** [n.to_bytes(width, "big")] for [0 <= n < 256 ^ width]. *)
Fixpoint be_encode (width : nat) (n : Z) : bytes :=
  match width with
  | O => []
  | S w => be_encode w (n / 256) ++ [byte_of_Z n]
  end.

(** [int.from_bytes(b, "big")]. *)
Definition be_decode (b : bytes) : Z :=
  fold_left (fun acc x => acc * 256 + Z_of_byte x) b 0.

(** [struct.pack(">I", n)]. *)
Definition pack_u32 (n : Z) : res bytes :=
  if (0 <=? n) && (n <? 2 ^ 32) then Ok (be_encode 4 n) else Raise StructError.

(** [n.to_bytes(8, "big")]. *)
Definition to_bytes8 (n : Z) : res bytes :=
  if (0 <=? n) && (n <? 2 ^ 64) then Ok (be_encode 8 n) else Raise OverflowError.

(** [s.encode("utf-8")] and its inverse: a [str] is kept as its UTF-8 text. *)
Definition encode_utf8 (s : string) : bytes := list_byte_of_string s.
Definition decode_utf8 (b : bytes) : string := string_of_list_byte b.

Definition bytes_eqb (a b : bytes) : bool :=
  String.eqb (string_of_list_byte a) (string_of_list_byte b).

(** [f.read(n)] on the unread part of a file: the bytes read and the rest;
    a negative [n] reads everything. *)
Definition file_read (n : Z) (f : bytes) : bytes * bytes :=
  if n <? 0 then (f, []) else (firstn (Z.to_nat n) f, skipn (Z.to_nat n) f).

Definition blen (b : bytes) : Z := Z.of_nat (List.length b).

(** Lower-case hexadecimal, as [hexdigest] prints it. *)
Definition hex_char (d : Z) : ascii :=
  match String.get (Z.to_nat d) "0123456789abcdef" with
  | Some c => c
  | None => "0"%char
  end.

Fixpoint hexlify (b : bytes) : string :=
  match b with
  | [] => EmptyString
  | x :: b' =>
      String (hex_char (Z_of_byte x / 16))
             (String (hex_char (Z_of_byte x mod 16)) (hexlify b'))
  end.

Definition hex_value (c : ascii) : option Z :=
  let n := Z.of_nat (nat_of_ascii c) in
  if (48 <=? n) && (n <=? 57) then Some (n - 48)
  else if (97 <=? n) && (n <=? 102) then Some (n - 87)
  else if (65 <=? n) && (n <=? 70) then Some (n - 55)
  else None.

(** [bytes.fromhex(s)] on a string of hex pairs. *)
Fixpoint fromhex (s : string) : res bytes :=
  match s with
  | EmptyString => Ok []
  | String a (String b rest) =>
      match hex_value a, hex_value b with
      | Some h, Some l => bs <- fromhex rest ;; Ok (byte_of_Z (16 * h + l) :: bs)
      | _, _ => Raise (ValueError "non-hexadecimal number found in fromhex() arg")
      end
  | String _ EmptyString =>
      Raise (ValueError "non-hexadecimal number found in fromhex() arg")
  end.

(** [s.lower()], [s.upper()] and [s.strip()]; exact for ASCII text, which is all
    the callers compare the results with. *)
Definition lower_char (c : ascii) : ascii :=
  let n := nat_of_ascii c in
  if (65 <=? n)%nat && (n <=? 90)%nat then ascii_of_nat (n + 32) else c.

Definition upper_char (c : ascii) : ascii :=
  let n := nat_of_ascii c in
  if (97 <=? n)%nat && (n <=? 122)%nat then ascii_of_nat (n - 32) else c.

Fixpoint map_string (f : ascii -> ascii) (s : string) : string :=
  match s with
  | EmptyString => EmptyString
  | String c s' => String (f c) (map_string f s')
  end.

Definition lower (s : string) : string := map_string lower_char s.
Definition upper (s : string) : string := map_string upper_char s.

Definition is_space (c : ascii) : bool :=
  let n := nat_of_ascii c in
  ((9 <=? n)%nat && (n <=? 13)%nat) || ((28 <=? n)%nat && (n <=? 32)%nat).

Fixpoint lstrip (s : string) : string :=
  match s with
  | EmptyString => EmptyString
  | String c s' => if is_space c then lstrip s' else s
  end.

(** Drop the trailing blanks: the result is empty when only blanks follow. *)
Fixpoint rstrip (s : string) : string :=
  match s with
  | EmptyString => EmptyString
  | String c s' =>
      match rstrip s' with
      | EmptyString => if is_space c then EmptyString else String c EmptyString
      | r => String c r
      end
  end.

Definition strip (s : string) : string := rstrip (lstrip s).

(** [x or "none"] for a string argument. *)
Definition or_none (s : string) : string :=
  if String.eqb s "" then "none" else s.

(** Whether [s.encode("ascii")] succeeds. *)
Definition is_ascii (s : string) : bool :=
  forallb (fun b => Z_of_byte b <? 128) (list_byte_of_string s).

Definition mem_string (s : string) (l : list string) : bool :=
  existsb (String.eqb s) l.

(** JSON values as the codec looks at them: scalars are explicit; arrays and
    objects nested inside a header are carried by their text together with
    their truth value. *)
Inductive pyval : Type :=
| VNone
| VBool (b : bool)
| VInt (z : Z)
| VStr (s : string)
| VOther (truth : bool) (text : string).

Definition truthy (v : pyval) : bool :=
  match v with
  | VNone => false
  | VBool b => b
  | VInt z => negb (z =? 0)
  | VStr s => negb (String.eqb s "")
  | VOther t _ => t
  end.

(** [v == s] for a string [s]. *)
Definition is_str (v : pyval) (s : string) : bool :=
  match v with
  | VStr s' => String.eqb s' s
  | _ => false
  end.

(** A [dict] with string keys: insertion ordered, keys unique. *)
Definition dict : Type := list (string * pyval).

Fixpoint dict_get (k : string) (d : dict) : option pyval :=
  match d with
  | [] => None
  | (k', v) :: d' => if String.eqb k k' then Some v else dict_get k d'
  end.

(** [d[k] = v]: an existing key keeps its position. *)
Fixpoint dict_set (k : string) (v : pyval) (d : dict) : dict :=
  match d with
  | [] => [(k, v)]
  | (k', v') :: d' =>
      if String.eqb k k' then (k', v) :: d' else (k', v') :: dict_set k v d'
  end.

(** [d.pop(k, None)]. *)
Fixpoint dict_pop (k : string) (d : dict) : dict :=
  match d with
  | [] => []
  | (k', v') :: d' =>
      if String.eqb k k' then d' else (k', v') :: dict_pop k d'
  end.

Definition is_dict (d : dict) : Prop := NoDup (map fst d).

(** What [json.loads] returns: an object, or some other document. *)
Inductive json_doc : Type :=
| JObject (d : dict)
| JOther (v : pyval).

(** ** The operating system: [os.urandom] and the clock *)

Record world : Type := mkWorld {
  tape : nat -> byte;   (* the entropy still to be handed out *)
  cursor : nat;
  clock : nat -> Z;     (* the times still to be read *)
  ticks : nat
}.

Definition urandom (n : nat) (w : world) : bytes * world :=
  (map (tape w) (seq (cursor w) n),
   mkWorld (tape w) (cursor w + n) (clock w) (ticks w)).

Definition time (w : world) : Z * world :=
  (clock w (ticks w), mkWorld (tape w) (cursor w) (clock w) (S (ticks w))).

(** ** External libraries used as black boxes *)

Inductive aead : Type := AESGCM | ChaCha20Poly1305.

Class Externals : Type := {
  (** [hashlib.sha256(b).digest()] *)
  sha256 : bytes -> bytes;
  (** [Scrypt(salt, length=32, n=2**14, r=8, p=1).derive(password)] *)
  scrypt : bytes -> bytes -> bytes;
  (** [cipher(key).encrypt(nonce, data, aad)] *)
  aead_encrypt : aead -> bytes -> bytes -> bytes -> bytes -> bytes;
  (** [cipher(key).decrypt(nonce, data, aad)] *)
  aead_decrypt : aead -> bytes -> bytes -> bytes -> bytes -> res bytes;
  (** [gzip.compress(b)], which stamps the current time *)
  gzip_compress : Z -> bytes -> bytes;
  gzip_decompress : bytes -> res bytes;
  (** [json.dumps(d, ensure_ascii=False, separators=(",", ":")).encode("utf-8")] *)
  json_dumps : dict -> bytes;
  (** [json.loads(b.decode("utf-8"))] *)
  json_loads : bytes -> res json_doc;
  b64encode : bytes -> bytes;
  b64decode : bytes -> res bytes;
  (** [int(s)] for a string *)
  int_of_str : string -> res Z;
  (** [math.log10(n)] for a positive integer: some finite double *)
  math_log10 : Z -> Float.fin;
  (** mpmath and sympy evaluating a named constant (or a custom expression)
      at [dps] decimal digits and streaming [digits] fractional digits in
      [base], in chunks of [chunk_size]: the chunks that
      [iter_fractional_bytes] yields, or the exception raised on the way *)
  mp_fraction_chunks :
    forall (constant_name expr : string) (dps digits base chunk_size : Z),
      res (list bytes)
}.

(** What the development assumes of them. *)
Class ExternalsOk (E : Externals) : Prop := {
  sha256_length : forall b, List.length (sha256 b) = 32%nat;
  scrypt_length : forall pw salt, List.length (scrypt pw salt) = 32%nat;
  aead_roundtrip : forall a key nonce data aad,
    aead_decrypt a key nonce (aead_encrypt a key nonce data aad) aad = Ok data;
  aead_length : forall a key nonce data aad,
    List.length (aead_encrypt a key nonce data aad) = (List.length data + 16)%nat;
  gzip_roundtrip : forall t b, gzip_decompress (gzip_compress t b) = Ok b;
  gzip_length : forall t b,
    (List.length (gzip_compress t b) <= 2 * List.length b + 64)%nat;
  json_roundtrip : forall d,
    is_dict d -> json_loads (json_dumps d) = Ok (JObject d);
  b64_roundtrip : forall b, b64decode (b64encode b) = Ok b;
  b64_ascii : forall b, is_ascii (decode_utf8 (b64encode b)) = true;
  b64_nonempty : forall b, b <> [] -> b64encode b <> []
}.

(** ** crypto.py and chunked.py *)

Module Crypto.
Section Envelope.
Context {E : Externals}.

Definition _MAGIC : bytes := encode_utf8 "DLOOM1".
Definition _ALG_AESGCM : Z := 1.
Definition _ALG_CHACHA20 : Z := 2.

Definition _kdf_scrypt (password : string) (salt : bytes) : bytes :=
  scrypt (encode_utf8 password) salt.

(** The metadata that is authenticated: the caller's, with the two tags. *)
Definition tagged (aad : dict) (algorithm : string) : dict :=
  dict_set "alg" (VStr algorithm) (dict_set "kdf" (VStr "scrypt") aad).

(** The cipher an algorithm id stands for. *)
Definition cipher_of_id (alg_id : Z) : aead :=
  if alg_id =? _ALG_AESGCM then AESGCM else ChaCha20Poly1305.

(** [b"".join([...])] of the envelope fields. *)
Definition envelope (alg_id : Z) (salt nonce meta_bytes ct : bytes) : bytes :=
  (_MAGIC ++ [byte_of_Z alg_id] ++ salt ++ nonce ++
   be_encode 4 (blen meta_bytes) ++ meta_bytes ++ ct).

Definition encrypt_blob_v1 (plaintext : bytes) (password algorithm : string)
    (aad : dict) (w : world) : res (bytes * world) :=
  if String.eqb password "" then Raise (ValueError "password is required")
  else
    let algorithm := strip (lower algorithm) in
    if negb (mem_string algorithm ["aes-256-gcm"; "chacha20-poly1305"])
    then Raise (ValueError "unsupported algorithm")
    else
      let '(salt, w) := urandom 16 w in
      let '(nonce, w) := urandom 12 w in
      let key := _kdf_scrypt password salt in
      let meta := dict_set "kdf" (VStr "scrypt") aad in
      let meta := dict_set "alg" (VStr algorithm) meta in
      let meta_bytes := json_dumps meta in
      if 2 ^ 32 - 1 <? blen meta_bytes then Raise (ValueError "aad too large")
      else
        let '(alg_id, ct) :=
          if String.eqb algorithm "aes-256-gcm"
          then (_ALG_AESGCM, aead_encrypt AESGCM key nonce plaintext meta_bytes)
          else (_ALG_CHACHA20,
                aead_encrypt ChaCha20Poly1305 key nonce plaintext meta_bytes) in
        Ok (envelope alg_id salt nonce meta_bytes ct, w).

(** [blob[lo:hi]] for non-negative bounds. *)
Definition slice (lo hi : Z) (b : bytes) : bytes :=
  firstn (Z.to_nat (hi - lo)) (skipn (Z.to_nat lo) b).

Definition decrypt_blob_v1 (blob : bytes) (password : string)
  : res (bytes * json_doc) :=
  if String.eqb password "" then Raise (ValueError "password is required")
  else if blen blob <? blen _MAGIC + 1 + 16 + 12 + 4
  then Raise (ValueError "invalid blob")
  else if negb (bytes_eqb (slice 0 (blen _MAGIC) blob) _MAGIC)
  then Raise (ValueError "invalid magic")
  else
    let pos := blen _MAGIC in
    let alg_id := Z_of_byte (nth (Z.to_nat pos) blob x00) in
    let pos := pos + 1 in
    let salt := slice pos (pos + 16) blob in
    let pos := pos + 16 in
    let nonce := slice pos (pos + 12) blob in
    let pos := pos + 12 in
    let meta_len := be_decode (slice pos (pos + 4) blob) in
    let pos := pos + 4 in
    let meta_bytes := slice pos (pos + meta_len) blob in
    let pos := pos + meta_len in
    let ct := skipn (Z.to_nat pos) blob in
    let key := _kdf_scrypt password salt in
    pt <- (if alg_id =? _ALG_AESGCM
           then aead_decrypt AESGCM key nonce ct meta_bytes
           else if alg_id =? _ALG_CHACHA20
           then aead_decrypt ChaCha20Poly1305 key nonce ct meta_bytes
           else Raise (ValueError "unsupported algorithm id")) ;;
    meta <- json_loads meta_bytes ;;
    Ok (pt, meta).

End Envelope.
End Crypto.

Module Chunked.
Section Codec.
Context {E : Externals}.

Definition _MAGIC : bytes := encode_utf8 "DLOOMCH1".

Definition _header_bytes (header : dict) : bytes := json_dumps header.

Definition _header_hash_hex (header : dict) : string :=
  let h := dict_pop "header_hash" header in
  hexlify (sha256 (_header_bytes h)).

Definition cipher (algorithm : string) : aead :=
  if String.eqb algorithm "aes-256-gcm" then AESGCM else ChaCha20Poly1305.

Definition _encrypt_chunk (key : bytes) (algorithm : string)
    (nonce payload aad : bytes) : bytes :=
  aead_encrypt (cipher algorithm) key nonce payload aad.

Definition _decrypt_chunk (key : bytes) (algorithm : string)
    (nonce payload aad : bytes) : res bytes :=
  aead_decrypt (cipher algorithm) key nonce payload aad.

(** The attributes of a writer; [w_file] is what has been written to the
    path so far. *)
Record ChunkedWriter : Type := mkWriter {
  w_compression : string;
  w_encryption : string;
  w_password : string;
  w_nonce_len : Z;
  w_key : option bytes;
  w_salt : option bytes;
  w_header : dict;
  w_header_hash_bytes : bytes;
  w_file : bytes;
  w_index : Z
}.

Definition compressions : list string := ["none"; "gzip"; "gz"].
Definition encryptions : list string := ["aes-256-gcm"; "chacha20-poly1305"].

(** [ChunkedWriter.__init__]. *)
Definition writer_init (header : dict) (compression encryption password : string)
    (w : world) : res (ChunkedWriter * world) :=
  let compression := strip (lower (or_none compression)) in
  let encryption := strip (lower (or_none encryption)) in
  if negb (mem_string compression compressions)
  then Raise (ValueError "unsupported compression")
  else
    let base_header := dict_set "version" (VInt 1) header in
    let base_header := dict_set "hash" (VStr "sha256") base_header in
    let base_header := dict_set "compression" (VStr compression) base_header in
    let base_header := dict_set "encryption" (VStr encryption) base_header in
    '(nonce_len, key, salt, base_header, w) <-
      (if negb (String.eqb encryption "none") then
         if String.eqb password ""
         then Raise (ValueError "password is required for encryption")
         else if negb (mem_string encryption encryptions)
         then Raise (ValueError "unsupported encryption")
         else
           let '(salt, w) := urandom 16 w in
           let key := Crypto._kdf_scrypt password salt in
           let h := dict_set "kdf" (VStr "scrypt") base_header in
           let h := dict_set "salt" (VStr (decode_utf8 (b64encode salt))) h in
           let h := dict_set "nonce_len" (VInt 12) h in
           Ok (12, Some key, Some salt, h, w)
       else Ok (0, None, None, base_header, w)) ;;
    let header_hash := _header_hash_hex base_header in
    let header := dict_set "header_hash" (VStr header_hash) base_header in
    let header_bytes := _header_bytes header in
    header_hash_bytes <- fromhex header_hash ;;
    len <- pack_u32 (blen header_bytes) ;;
    Ok (mkWriter compression encryption password nonce_len key salt header
          header_hash_bytes (_MAGIC ++ len ++ header_bytes) 0, w).

Definition is_gzip (compression : string) : bool :=
  mem_string compression ["gzip"; "gz"].

(** [ChunkedWriter.write]. *)
Definition writer_write (raw : bytes) (wr : ChunkedWriter) (w : world)
  : res (ChunkedWriter * world) :=
  match raw with
  | [] => Ok (wr, w)
  | _ =>
      let raw_len := blen raw in
      let '(payload, w) :=
        if is_gzip (w_compression wr)
        then let '(now, w) := time w in (gzip_compress now raw, w)
        else (raw, w) in
      '(nonce, payload, w) <-
        (if negb (String.eqb (w_encryption wr) "none") then
           let '(nonce, w) := urandom (Z.to_nat (w_nonce_len wr)) w in
           idx <- to_bytes8 (w_index wr) ;;
           let aad := (w_header_hash_bytes wr ++ idx) in
           match w_key wr with
           | Some key =>
               Ok (nonce, _encrypt_chunk key (w_encryption wr) nonce payload aad, w)
           | None => Raise TypeError
           end
         else Ok ([], payload, w)) ;;
      let payload_len := blen payload in
      let digest := sha256 raw in
      a <- pack_u32 raw_len ;;
      b <- pack_u32 payload_len ;;
      Ok (mkWriter (w_compression wr) (w_encryption wr) (w_password wr)
            (w_nonce_len wr) (w_key wr) (w_salt wr) (w_header wr)
            (w_header_hash_bytes wr)
            (w_file wr ++ a ++ b ++ digest ++ nonce ++ payload)
            (w_index wr + 1), w)
  end.

(** The header a writer ends up with, for selectors that are already in
    normal form: the caller's metadata, the stamped fields, and the hash. *)
Definition written_header (metadata : dict) (compression encryption : string)
    (w : world) : dict :=
  let h := dict_set "version" (VInt 1) metadata in
  let h := dict_set "hash" (VStr "sha256") h in
  let h := dict_set "compression" (VStr compression) h in
  let h := dict_set "encryption" (VStr encryption) h in
  let h :=
    if String.eqb encryption "none" then h
    else
      let h := dict_set "kdf" (VStr "scrypt") h in
      let h := dict_set "salt"
                 (VStr (decode_utf8 (b64encode (fst (urandom 16 w))))) h in
      dict_set "nonce_len" (VInt 12) h in
  dict_set "header_hash" (VStr (_header_hash_hex h)) h.

(** The header fields the codec itself writes or reads. *)
Definition reserved_keys : list string :=
  ["version"; "hash"; "compression"; "encryption"; "kdf"; "salt"; "nonce_len";
   "header_hash"].

Definition unreserved (metadata : dict) : Prop :=
  forall k, In k reserved_keys -> dict_get k metadata = None.

(** The two chunks of the round-trip tests. *)
Definition b14 : bytes := encode_utf8 "14".
Definition b15 : bytes := encode_utf8 "15".

(** One chunk record as [write] lays it out. *)
Definition chunk_record (raw nonce payload : bytes) : bytes :=
  be_encode 4 (blen raw) ++ be_encode 4 (blen payload) ++ sha256 raw ++
  nonce ++ payload.

(** The attributes of a reader; [r_file] is the unread rest of the file. *)
Record ChunkedReader : Type := mkReader {
  r_password : string;
  r_file : bytes;
  r_header : dict;
  r_header_hash_bytes : bytes;
  r_compression : string;
  r_encryption : string;
  r_nonce_len : Z;
  r_key : option bytes;
  r_index : Z
}.

(** [header.get(k)]. *)
Definition get (k : string) (header : dict) : pyval :=
  match dict_get k header with
  | Some v => v
  | None => VNone
  end.

(** [(header.get(k) or "none").lower().strip()]. *)
Definition kind_field (k : string) (header : dict) : res string :=
  let v := get k header in
  if truthy v then
    match v with
    | VStr s => Ok (strip (lower s))
    | _ => Raise AttributeError
    end
  else Ok (strip (lower "none")).

(** [int(header.get(k) or 0)]. *)
Definition int_field (k : string) (header : dict) : res Z :=
  let v := get k header in
  if truthy v then
    match v with
    | VInt z => Ok z
    | VBool b => Ok (if b then 1 else 0)
    | VStr s => int_of_str s
    | _ => Raise TypeError
    end
  else Ok 0.

(** The header has to be a JSON object: on any other document [dict(header)]
    or [header.get] raises (TypeError, ValueError or AttributeError, by the
    document's shape). *)
Definition as_header (doc : json_doc) : res dict :=
  match doc with
  | JObject d => Ok d
  | JOther _ => Raise TypeError
  end.

(** [ChunkedReader.__init__] from the point where the header has been parsed;
    [f] is the unread rest of the file. *)
Definition reader_setup (header : dict) (f : bytes) (password : string)
  : res ChunkedReader :=
  let computed_hash := _header_hash_hex header in
  if truthy (get "header_hash" header) &&
     negb (is_str (get "header_hash" header) computed_hash)
  then Raise (ValueError "header hash mismatch")
  else
    header_hash_bytes <- fromhex computed_hash ;;
    compression <- kind_field "compression" header ;;
    encryption <- kind_field "encryption" header ;;
    if negb (mem_string compression compressions)
    then Raise (ValueError "unsupported compression")
    else
      nonce_len <- int_field "nonce_len" header ;;
      key <-
        (if negb (String.eqb encryption "none") then
           if String.eqb password ""
           then Raise (ValueError "password is required for decryption")
           else
             let salt_b64 := get "salt" header in
             if negb (truthy salt_b64) then Raise (ValueError "missing salt")
             else
               match salt_b64 with
               | VStr s =>
                   if is_ascii s then
                     salt <- b64decode (encode_utf8 s) ;;
                     Ok (Some (Crypto._kdf_scrypt password salt))
                   else Raise (ValueError "ascii")
               | _ => Raise AttributeError
               end
         else Ok None) ;;
      Ok (mkReader password f header header_hash_bytes compression
            encryption nonce_len key 0).

(** [ChunkedReader.__init__] on the bytes found at the path. *)
Definition reader_init (file : bytes) (password : string) : res ChunkedReader :=
  let '(magic, f) := file_read (blen _MAGIC) file in
  if negb (bytes_eqb magic _MAGIC) then Raise (ValueError "invalid magic")
  else
    let '(header_len_raw, f) := file_read 4 f in
    if negb (blen header_len_raw =? 4) then Raise (ValueError "invalid header")
    else
      let header_len := be_decode header_len_raw in
      let '(header_bytes, f) := file_read header_len f in
      if negb (blen header_bytes =? header_len)
      then Raise (ValueError "invalid header")
      else
        header <- (doc <- json_loads header_bytes ;; as_header doc) ;;
        reader_setup header f password.

(** [ChunkedReader.__next__]: [None] stands for StopIteration. *)
Definition reader_next (r : ChunkedReader) : res (option bytes * ChunkedReader) :=
  let with_file f idx :=
    mkReader (r_password r) f (r_header r) (r_header_hash_bytes r)
      (r_compression r) (r_encryption r) (r_nonce_len r) (r_key r) idx in
  let '(header_raw, f) := file_read 8 (r_file r) in
  match header_raw with
  | [] => Ok (None, with_file f (r_index r))
  | _ =>
      if negb (blen header_raw =? 8) then Raise (ValueError "invalid chunk header")
      else
        let raw_len := be_decode (firstn 4 header_raw) in
        let payload_len := be_decode (skipn 4 header_raw) in
        let '(digest, f) := file_read 32 f in
        if negb (blen digest =? 32) then Raise (ValueError "invalid chunk hash")
        else
          '(nonce, f) <-
            (if negb (String.eqb (r_encryption r) "none") then
               let '(nonce, f) := file_read (r_nonce_len r) f in
               if negb (blen nonce =? r_nonce_len r)
               then Raise (ValueError "invalid nonce")
               else Ok (nonce, f)
             else Ok ([], f)) ;;
          let '(payload, f) := file_read payload_len f in
          if negb (blen payload =? payload_len)
          then Raise (ValueError "invalid chunk payload")
          else
            data <-
              (if negb (String.eqb (r_encryption r) "none") then
                 idx <- to_bytes8 (r_index r) ;;
                 let aad := (r_header_hash_bytes r ++ idx) in
                 match r_key r with
                 | Some key => _decrypt_chunk key (r_encryption r) nonce payload aad
                 | None => Raise TypeError
                 end
               else Ok payload) ;;
            data <- (if is_gzip (r_compression r) then gzip_decompress data
                     else Ok data) ;;
            if negb (blen data =? raw_len) then Raise (ValueError "invalid chunk length")
            else if negb (bytes_eqb (sha256 data) digest)
            then Raise (ValueError "chunk hash mismatch")
            else Ok (Some data, with_file f (r_index r + 1))
  end.

(** [list(reader)]: call [__next__] until StopIteration. *)
Fixpoint read_all (fuel : nat) (r : ChunkedReader) : res (list bytes) :=
  match fuel with
  | O => OutOfFuel
  | S fuel' =>
      '(o, r') <- reader_next r ;;
      match o with
      | None => Ok []
      | Some chunk => rest <- read_all fuel' r' ;; Ok (chunk :: rest)
      end
  end.

(** Every chunk takes at least 40 bytes of the file, so its length bounds the
    number of calls. *)
Definition reader_list (r : ChunkedReader) : res (list bytes) :=
  read_all (S (List.length (r_file r))) r.

End Codec.
End Chunked.

(** ** constants.py: the precision planner *)

Module Constants.
Section Planner.
Context {E : Externals}.

(** The keys of [constants_map()] that are bound to a value; "Custom" is
    bound to [None]. *)
Definition constants_map : list string :=
  ["Pi (π)"; "Tau (τ)"; "Euler's e"; "Sqrt(2)"; "Golden ratio (φ)";
   "Euler–Mascheroni (γ)"; "Apery's ζ(3)"; "Catalan (G)"; "ln 2";
   "ζ(2) = π²/6"].

(** [math.log10(base)]: a domain error unless [base] is positive. *)
Definition log10 (base : Z) : res Float.fin :=
  if base <=? 0 then Raise (ValueError "math domain error")
  else Ok (math_log10 base).

(** [compute_precision(digits, base, guard)]. *)
Definition compute_precision (digits base guard : Z) : res Z :=
  lg <- log10 base ;;
  fd <- Float.of_int digits ;;
  c <- Float.ceil (Float.mul fd lg) ;;
  Ok (c + guard).

End Planner.
End Constants.

(** ** streaming.py and verify.py *)

Module Verify.
Section Oracle.
Context {E : Externals}.

Definition slen (s : string) : Z := Z.of_nat (String.length s).

(** [collect_fractional_prefix(chunks, count)]. *)
Fixpoint collect_fractional_prefix (chunks : list bytes) (count : Z) (out : bytes)
  : bytes :=
  match chunks with
  | [] => out
  | chunk :: rest =>
      let need := count - blen out in
      if need <=? 0 then out
      else if blen chunk <=? need
      then collect_fractional_prefix rest count (out ++ chunk)
      else out ++ firstn (Z.to_nat need) chunk
  end.

(** [_pi_spigot_prefix(count)]. *)
Definition _pi_spigot_prefix (fuel : nat) (count : Z) : res string :=
  '(_, g) <- Spigot.next fuel Spigot.init ;;
  '(out, _) <- Spigot.take fuel (Z.to_nat count) g ;;
  Ok (String.concat "" (map str_of_int out)).

(** [_mp_prefix(constant_name, expr, base, samples)]. *)
Definition _mp_prefix (constant_name expr : string) (base samples : Z)
  : res string :=
  p <- Constants.compute_precision samples base 60 ;;
  if negb (String.eqb constant_name "Custom") &&
     negb (mem_string constant_name Constants.constants_map)
  then Raise (KeyError constant_name)
  else
    let chunk_size := Z.min 1024 (Z.max 1 samples) in
    chunks <- mp_fraction_chunks constant_name expr p samples base chunk_size ;;
    Ok (decode_utf8 (collect_fractional_prefix chunks samples [])).

(** [verify_fractional_digits]; the candidate is ASCII text, for which [len],
    slicing and [upper] act on bytes. *)
Definition verify_fractional_digits (fuel : nat) (constant_name expr : string)
    (base samples : Z) (fractional_digits : string) : res (bool * string) :=
  if samples <=? 0 then Ok (true, "verification skipped")
  else if String.eqb constant_name "Pi (π)" && (base =? 10) then
    expected <- _pi_spigot_prefix fuel (Z.min samples (slen fractional_digits)) ;;
    let actual := substring 0 (String.length expected) fractional_digits in
    let ok := String.eqb expected actual in
    Ok (ok, "pi spigot")
  else if String.eqb constant_name "Pi (π)" && (base =? 16) then
    let count := Z.min samples (slen fractional_digits) in
    expected <- Bbp.pi_hex_digits 0 count ;;
    let actual := upper (substring 0 (Z.to_nat count) fractional_digits) in
    let ok := String.eqb expected actual in
    Ok (ok, "pi bbp")
  else
    expected <- _mp_prefix constant_name expr base
                  (Z.min samples (slen fractional_digits)) ;;
    let actual := substring 0 (String.length expected) fractional_digits in
    let ok := String.eqb expected actual in
    Ok (ok, "mp stability").

End Oracle.

(** The first fifty fractional digits of pi. *)
Definition pi_fraction_50 : string :=
  "14159265358979323846264338327950288419716939937510".

End Verify.

(** ** An executable interpretation of the external libraries

    It shows that the assumptions of [ExternalsOk] are consistent and lets
    the codec definitions run on concrete inputs.  Nothing here imitates the
    real algorithms: the digest and the key are padded prefixes, the cipher
    appends a 16-byte tag taken from the key, compression is the identity,
    base64 is hexadecimal, and the header encoding is a tagged binary format. *)

Module Model.

Definition pad (n : nat) (b : bytes) : bytes :=
  firstn n (b ++ repeat x00 n).

Definition sha256 (b : bytes) : bytes := pad 32 b.
Definition scrypt (password salt : bytes) : bytes :=
  pad 32 (password ++ salt).

Definition aead_encrypt (_ : aead) (key nonce data aad : bytes) : bytes :=
  (data ++ pad 16 key).

Definition aead_decrypt (_ : aead) (key nonce data aad : bytes) : res bytes :=
  let n := (List.length data - 16)%nat in
  if (List.length data <? 16)%nat then Raise InvalidTag
  else if bytes_eqb (skipn n data) (pad 16 key) then Ok (firstn n data)
  else Raise InvalidTag.

Definition gzip_compress (_ : Z) (b : bytes) : bytes := b.
Definition gzip_decompress (b : bytes) : res bytes := Ok b.

Definition b64encode (b : bytes) : bytes := encode_utf8 (hexlify b).
Definition b64decode (b : bytes) : res bytes := fromhex (decode_utf8 b).

Definition int_of_str (s : string) : res Z :=
  match NilZero.int_of_string s with
  | Some i => Ok (Z.of_int i)
  | None => Raise (ValueError "invalid literal for int()")
  end.

(** 1.0 for ten, and log2(n) * 0.30103 otherwise. *)
Definition math_log10 (n : Z) : Float.fin :=
  if n =? 10 then Float.mkFin 1 0
  else Float.literal (Z.log2 n * 30103) 5.

(** Every constant has the fractional digits 000... *)
Definition mp_fraction_chunks (constant_name expr : string)
    (dps digits base chunk_size : Z) : res (list bytes) :=
  Ok (repeat (encode_utf8 "0") (Z.to_nat digits)).

Fixpoint unary (n : nat) : bytes :=
  match n with
  | O => [x00]
  | S n' => x01 :: unary n'
  end.

Fixpoint read_unary (b : bytes) : option (nat * bytes) :=
  match b with
  | x00 :: rest => Some (O, rest)
  | x01 :: rest =>
      match read_unary rest with
      | Some (n, rest') => Some (S n, rest')
      | None => None
      end
  | _ => None
  end.

Definition enc_bool (b : bool) : bytes := [if b then x01 else x00].

Definition read_bool (b : bytes) : option (bool * bytes) :=
  match b with
  | x00 :: rest => Some (false, rest)
  | x01 :: rest => Some (true, rest)
  | _ => None
  end.

Definition enc_str (s : string) : bytes :=
  let b := list_byte_of_string s in (unary (List.length b) ++ b).

Definition read_str (b : bytes) : option (string * bytes) :=
  match read_unary b with
  | Some (n, rest) =>
      if (n <=? List.length rest)%nat
      then Some (string_of_list_byte (firstn n rest), skipn n rest)
      else None
  | None => None
  end.

Definition enc_val (v : pyval) : bytes :=
  match v with
  | VNone => [x00]
  | VBool b => x01 :: enc_bool b
  | VInt z => (x02 :: enc_bool (z <? 0) ++ unary (Z.abs_nat z))
  | VStr s => x03 :: enc_str s
  | VOther t s => (x04 :: enc_bool t ++ enc_str s)
  end.

Definition read_val (b : bytes) : option (pyval * bytes) :=
  match b with
  | x00 :: rest => Some (VNone, rest)
  | x01 :: rest =>
      match read_bool rest with
      | Some (v, rest') => Some (VBool v, rest')
      | None => None
      end
  | x02 :: rest =>
      match read_bool rest with
      | Some (neg, rest') =>
          match read_unary rest' with
          | Some (n, rest'') =>
              Some (VInt (if neg then - Z.of_nat n else Z.of_nat n), rest'')
          | None => None
          end
      | None => None
      end
  | x03 :: rest =>
      match read_str rest with
      | Some (s, rest') => Some (VStr s, rest')
      | None => None
      end
  | x04 :: rest =>
      match read_bool rest with
      | Some (t, rest') =>
          match read_str rest' with
          | Some (s, rest'') => Some (VOther t s, rest'')
          | None => None
          end
      | None => None
      end
  | _ => None
  end.

Fixpoint enc_dict (d : dict) : bytes :=
  match d with
  | [] => [x00]
  | (k, v) :: d' => (x01 :: enc_str k ++ enc_val v ++ enc_dict d')
  end.

Fixpoint read_dict (fuel : nat) (b : bytes) : option (dict * bytes) :=
  match fuel with
  | O => None
  | S fuel' =>
      match b with
      | x00 :: rest => Some ([], rest)
      | x01 :: rest =>
          match read_str rest with
          | Some (k, rest1) =>
              match read_val rest1 with
              | Some (v, rest2) =>
                  match read_dict fuel' rest2 with
                  | Some (d, rest3) => Some ((k, v) :: d, rest3)
                  | None => None
                  end
              | None => None
              end
          | None => None
          end
      | _ => None
      end
  end.

Definition json_dumps (d : dict) : bytes := enc_dict d.

Definition json_loads (b : bytes) : res json_doc :=
  match read_dict (S (List.length b)) b with
  | Some (d, []) => Ok (JObject d)
  | _ => Raise (ValueError "JSONDecodeError")
  end.

End Model.

#[export] Instance model_externals : Externals := {|
  sha256 := Model.sha256;
  scrypt := Model.scrypt;
  aead_encrypt := Model.aead_encrypt;
  aead_decrypt := Model.aead_decrypt;
  gzip_compress := Model.gzip_compress;
  gzip_decompress := Model.gzip_decompress;
  json_dumps := Model.json_dumps;
  json_loads := Model.json_loads;
  b64encode := Model.b64encode;
  b64decode := Model.b64decode;
  int_of_str := Model.int_of_str;
  math_log10 := Model.math_log10;
  mp_fraction_chunks := Model.mp_fraction_chunks
|}.

(** A world whose entropy tape counts 0, 1, 2, ... and whose clock stands
    still. *)
Definition model_world : world :=
  mkWorld (fun i => byte_of_Z (Z.of_nat i)) 0 (fun _ => 0) 0.

(** * Proofs *)

Lemma Ok_inj {A : Type} (a b : A) : Ok a = Ok b -> a = b.
Proof. congruence. Qed.

(** ** The spigot generator *)

Section SpigotFacts.
Import Spigot.

Lemma next_fuel_mono fuel s x :
  next fuel s = Ok x -> forall extra, next (fuel + extra) s = Ok x.
Proof.
  revert s. induction fuel as [|fuel IH]; intros s H extra; [discriminate|].
  simpl in *. destruct (step s) as [[o s']| |]; simpl in *; try discriminate.
  destruct o; [assumption|]. now apply IH.
Qed.

Lemma take_fuel_mono fuel count s x :
  take fuel count s = Ok x -> forall extra, take (fuel + extra) count s = Ok x.
Proof.
  revert s x. induction count as [|count IH]; intros s x H extra; [assumption|].
  simpl in *.
  destruct (next fuel s) as [[d s1]| |] eqn:Hn; simpl in H; try discriminate.
  rewrite (next_fuel_mono _ _ _ Hn). simpl.
  destruct (take fuel count s1) as [[ds s2]| |] eqn:Ht; simpl in H; try discriminate.
  now rewrite (IH _ _ Ht).
Qed.

Lemma step_preserves s o s' :
  positive_state s -> step s = Ok (o, s') -> positive_state s'.
Proof.
  unfold positive_state, step, floordiv. intros (Hq & Ht & Hl & Hk) H.
  destruct (4 * q s + r s - t s <? n s * t s).
  - destruct (t s =? 0); cbn [bind] in H; [discriminate|].
    apply Ok_inj, pair_equal_spec in H. destruct H as [_ <-].
    cbn [q r t k n l]. repeat split; lia.
  - destruct (t s * l s =? 0); cbn [bind] in H; [discriminate|].
    apply Ok_inj, pair_equal_spec in H. destruct H as [_ <-].
    cbn [q r t k n l]. repeat split; nia.
Qed.

Lemma step_defined s :
  positive_state s -> exists o s', step s = Ok (o, s').
Proof.
  unfold positive_state, step, floordiv. intros (Hq & Ht & Hl & Hk).
  destruct (4 * q s + r s - t s <? n s * t s).
  - destruct (t s =? 0) eqn:E; [apply Z.eqb_eq in E; lia|].
    simpl. eauto.
  - destruct (t s * l s =? 0) eqn:E; [apply Z.eqb_eq in E; nia|].
    simpl. eauto.
Qed.

Lemma reachable_positive s : reachable s -> positive_state s.
Proof.
  induction 1 as [|s o s' _ IH Hstep].
  - unfold positive_state; simpl; lia.
  - eapply step_preserves; eauto.
Qed.

End SpigotFacts.

(** C5: started at (1,0,1,1,3,3), the generator yields 3,1,4,1,5,9,... as its
    first 51 digits, and [format_spigot_pi 51] returns
    3.14159265358979323846264338327950288419716939937510; ten loop iterations
    per [next] are enough, and any larger budget gives the same answer. *)
Theorem spigot_first_51_digits :
  forall extra : nat,
    Spigot.pi_digits_spigot (10 + extra) 51 = Ok Spigot.first_51 /\
    Spigot.format_spigot_pi (10 + extra) 51 = Ok Spigot.pi_50.
Proof.
  intros extra. split.
  - unfold Spigot.pi_digits_spigot.
    assert (H : exists s, Spigot.take 10 51 Spigot.init = Ok (Spigot.first_51, s))
      by (vm_compute; eexists; reflexivity).
    destruct H as [s H]. now rewrite (take_fuel_mono _ _ _ _ H).
  - unfold Spigot.format_spigot_pi.
    change (51 <? 1) with false. cbv iota.
    pose (s1 := Spigot.mkState 10 (-30) 3 2 0 5).
    assert (Hn : Spigot.next 10 Spigot.init = Ok (3, s1)) by reflexivity.
    assert (Ht : exists s', Spigot.take 10 50 s1 = Ok (tl Spigot.first_51, s'))
      by (vm_compute; eexists; reflexivity).
    destruct Ht as [s' Ht].
    rewrite (next_fuel_mono _ _ _ Hn). cbn [bind].
    change (Z.to_nat (51 - 1)) with 50%nat.
    rewrite (take_fuel_mono _ _ _ _ Ht). reflexivity.
Qed.

(** C10 as stated fails: after the first digit is yielded the state has
    r = -30, so r >= 0 is not an invariant. *)
Lemma spigot_r_negative_reachable :
  ~ (forall s, Spigot.reachable s ->
        1 <= Spigot.q s /\ 1 <= Spigot.t s /\ 3 <= Spigot.l s /\ 0 <= Spigot.r s).
Proof.
  intros H.
  assert (R : Spigot.reachable (Spigot.mkState 10 (-30) 3 2 0 5)).
  { eapply Spigot.reach_step with (s := Spigot.mkState 1 6 3 2 3 5).
    - eapply Spigot.reach_step; [apply Spigot.reach_init | reflexivity].
    - reflexivity. }
  apply H in R. simpl in R. lia.
Qed.

(** C10 (amended): in every reachable state q >= 1, t >= 1, l >= 3 and
    k >= 1, so neither division has a zero divisor and the loop body always
    completes with a next state. *)
Theorem spigot_reachable_safe :
  forall s, Spigot.reachable s ->
    1 <= Spigot.q s /\ 1 <= Spigot.t s /\ 3 <= Spigot.l s /\ 1 <= Spigot.k s /\
    Spigot.t s <> 0 /\ Spigot.t s * Spigot.l s <> 0 /\
    exists o s', Spigot.step s = Ok (o, s') /\ Spigot.reachable s'.
Proof.
  intros s R. pose proof (reachable_positive s R) as P.
  destruct (step_defined s P) as (o & s' & Hs).
  destruct P as (Hq & Ht & Hl & Hk).
  repeat split; try lia; try nia.
  exists o, s'. split; [assumption|]. eapply Spigot.reach_step; eauto.
Qed.

Lemma spigot_reachable_safe_witness :
  Spigot.reachable Spigot.init /\
  exists o s', Spigot.step Spigot.init = Ok (o, s') /\ Spigot.reachable s'.
Proof.
  split; [apply Spigot.reach_init|].
  apply (spigot_reachable_safe Spigot.init Spigot.reach_init).
Defined.

(** ** Binary splitting: the ordered fold over sub-ranges *)

Section ChudnovskyFacts.
Import Chudnovsky.

Lemma _combine_assoc x y z :
  _combine (_combine x y) z = _combine x (_combine y z).
Proof. unfold _combine; cbn [p q t]; f_equal; ring. Qed.

Lemma _combine_unit_l x : _combine bs_unit x = x.
Proof. destruct x; unfold _combine, bs_unit; cbn [p q t]; f_equal; ring. Qed.

Lemma _combine_unit_r x : _combine x bs_unit = x.
Proof. destruct x; unfold _combine, bs_unit; cbn [p q t]; f_equal; ring. Qed.

Lemma prod_range_app a n m :
  prod_range a (n + m) =
  _combine (prod_range a n) (prod_range (a + Z.of_nat n) m).
Proof.
  revert a. induction n as [|n IH]; intros a.
  - cbn [prod_range Nat.add]. rewrite _combine_unit_l. f_equal. simpl. lia.
  - cbn [prod_range Nat.add]. rewrite IH, _combine_assoc.
    do 3 f_equal. lia.
Qed.

Lemma prod_range_split a m b :
  a <= m <= b ->
  prod_range a (Z.to_nat (b - a)) =
  _combine (prod_range a (Z.to_nat (m - a))) (prod_range m (Z.to_nat (b - m))).
Proof.
  intros H.
  replace (Z.to_nat (b - a)) with (Z.to_nat (m - a) + Z.to_nat (b - m))%nat by lia.
  rewrite prod_range_app. do 2 f_equal. lia.
Qed.

(** The recursion computes the ordered product of its range, and a depth of
    [b - a] is always enough. *)
Lemma _bs_rec_spec depth :
  forall a b, a < b -> (Z.to_nat (b - a) <= depth)%nat ->
    _bs_rec depth a b = Ok (prod_range a (Z.to_nat (b - a))).
Proof.
  induction depth as [|depth IH]; intros a b Hab Hd; [lia|].
  cbn [_bs_rec]. destruct (b - a =? 1) eqn:E.
  - apply Z.eqb_eq in E. rewrite E. change (Z.to_nat 1) with 1%nat. cbn [prod_range].
    now rewrite _combine_unit_r.
  - apply Z.eqb_neq in E.
    assert (Hm : a < (a + b) / 2 < b)
      by (Z.to_euclidean_division_equations; lia).
    rewrite (IH a ((a + b) / 2)) by lia.
    rewrite (IH ((a + b) / 2) b) by lia.
    cbn [bind]. f_equal.
    rewrite (prod_range_split a ((a + b) / 2) b) by lia. reflexivity.
Qed.

Lemma _bs_spec a b :
  a < b -> _bs a b = Ok (prod_range a (Z.to_nat (b - a))).
Proof. intros H. unfold _bs. apply _bs_rec_spec; [assumption | lia]. Qed.

Lemma mapM_ok {A B : Type} (f : A -> res B) (g : A -> B) (xs : list A) :
  (forall x, In x xs -> f x = Ok (g x)) -> mapM f xs = Ok (map g xs).
Proof.
  induction xs as [|x xs IH]; intros H; [reflexivity|].
  cbn [mapM map]. rewrite (H x) by (left; reflexivity). cbn [bind].
  rewrite IH by (intros y Hy; apply H; right; assumption). reflexivity.
Qed.

Lemma zrange_nth lo hi i d :
  (i < Z.to_nat (hi - lo))%nat -> nth i (zrange lo hi) d = lo + Z.of_nat i.
Proof.
  intros H. unfold zrange.
  rewrite (nth_indep _ d (lo + Z.of_nat 0)) by now rewrite length_map, length_seq.
  rewrite (map_nth (fun i => lo + Z.of_nat i)). now rewrite seq_nth.
Qed.

Lemma zrange_In lo hi x : In x (zrange lo hi) <-> lo <= x < hi.
Proof.
  unfold zrange. rewrite in_map_iff. split.
  - intros (i & <- & Hi). apply in_seq in Hi. lia.
  - intros H. exists (Z.to_nat (x - lo)). split; [lia|]. apply in_seq. lia.
Qed.

Lemma zrange_snoc n : 0 <= n -> zrange 0 (n + 1) = zrange 0 n ++ [n].
Proof.
  intros H. unfold zrange.
  replace (Z.to_nat (n + 1 - 0)) with (S (Z.to_nat (n - 0))) by lia.
  rewrite seq_S, map_app. cbn [map Nat.add]. do 2 f_equal. lia.
Qed.

Lemma bounds_nth T c i :
  0 < c -> 0 <= i <= c -> nth (Z.to_nat i) (bounds T c) 0 = (T * i) / c.
Proof.
  intros Hc Hi. unfold bounds.
  destruct (Z.eq_dec i 0) as [->|Hne].
  - now rewrite Z.mul_0_r, Z.div_0_l by lia.
  - replace (Z.to_nat i) with (S (Z.to_nat (i - 1))) by lia. cbn [nth].
    rewrite (nth_indep _ 0 ((fun j => T * j / c) 0))
      by (rewrite length_map; unfold zrange; rewrite length_map, length_seq; lia).
    rewrite (map_nth (fun j => T * j / c)).
    rewrite zrange_nth by lia. do 2 f_equal. lia.
Qed.

Lemma ranges_spec T c :
  0 < c ->
  ranges T c = map (fun i => ((T * i) / c, (T * (i + 1)) / c)) (zrange 0 c).
Proof.
  intros Hc. unfold ranges. apply map_ext_in. intros i Hi.
  apply zrange_In in Hi.
  now rewrite !bounds_nth by lia.
Qed.

Lemma bound_step T c i :
  0 < c <= T -> 0 <= i -> (T * i) / c < (T * (i + 1)) / c.
Proof.
  intros Hc Hi.
  apply Z.lt_le_trans with ((T * i + 1 * c) / c).
  - rewrite Z.div_add by lia. lia.
  - apply Z.div_le_mono; lia.
Qed.

Lemma fold_chunks T c n :
  0 < c <= T -> 0 <= n ->
  fold_left _combine
    (map (fun i => prod_range ((T * i) / c)
                     (Z.to_nat ((T * (i + 1)) / c - (T * i) / c)))
         (zrange 0 n))
    bs_unit
  = prod_range 0 (Z.to_nat ((T * n) / c)).
Proof.
  intros Hc Hn. pattern n. apply natlike_ind; [| |assumption].
  - rewrite Z.mul_0_r, Z.div_0_l by lia. reflexivity.
  - clear n Hn. intros n Hn IH. unfold Z.succ.
    rewrite zrange_snoc, map_app, fold_left_app, IH by assumption.
    cbn [map fold_left].
    pose proof (bound_step T c n Hc Hn).
    assert (0 <= T * n / c) by (apply Z.div_pos; nia).
    pose proof (prod_range_split 0 (T * n / c) (T * (n + 1) / c)) as S.
    rewrite !Z.sub_0_r in S. rewrite S by lia. reflexivity.
Qed.

(** Partitioning [0, T) and folding the chunk results in range order gives
    exactly the result of the single recursive call. *)
Lemma bs_parallel_eq T W :
  1 <= T -> 1 <= W -> bs_parallel T W = _bs 0 T.
Proof.
  intros HT HW. unfold bs_parallel.
  set (c := Z.min W T). assert (Hc : 0 < c <= T) by (subst c; lia).
  rewrite ranges_spec by lia.
  rewrite (mapM_ok _ (fun ab => prod_range (fst ab) (Z.to_nat (snd ab - fst ab)))).
  - cbn [bind]. rewrite map_map. change (mkBS 1 1 0) with bs_unit.
    cbv beta. cbn [fst snd].
    rewrite (fold_chunks T c c) by lia.
    rewrite Z.div_mul by lia.
    rewrite _bs_spec by lia. now rewrite Z.sub_0_r.
  - intros [a b] Hin. apply in_map_iff in Hin. destruct Hin as (i & Heq & Hi).
    apply zrange_In in Hi. injection Heq as <- <-.
    unfold _bs_range. cbn [fst snd]. apply _bs_spec. apply bound_step; lia.
Qed.

End ChudnovskyFacts.

(** C1: for every D >= 0 and W >= 1 the result with W workers is the result
    with one worker, because the partitioned computation (contiguous
    sub-ranges of [0,T), each computed by [_bs], folded left to right with
    [_combine] from (1,1,0)) returns the same (p,q,t) as [_bs 0 T], which
    itself always returns; and for D = 80 the result is the reference string
    whatever W is. *)
Theorem chudnovsky_workers_agree :
  forall D W, 0 <= D -> 1 <= W ->
    Chudnovsky.chudnovsky_pi_decimal_string D W =
    Chudnovsky.chudnovsky_pi_decimal_string D 1 /\
    (forall T, 1 <= T ->
       Chudnovsky.bs_parallel T W = Chudnovsky._bs 0 T /\
       exists bs, Chudnovsky._bs 0 T = Ok bs) /\
    Chudnovsky.chudnovsky_pi_decimal_string 80 W = Ok Chudnovsky.PI_80.
Proof.
  intros D W HD HW. split; [|split].
  - unfold Chudnovsky.chudnovsky_pi_decimal_string.
    destruct (D <? 0); [reflexivity|].
    replace (W <? 1) with false by (symmetry; apply Z.ltb_ge; lia).
    change (1 <? 1) with false. change (1 =? 1) with true. cbn [orb].
    destruct (Chudnovsky.term_count D) as [T| |]; cbn [bind]; try reflexivity.
    destruct ((W =? 1) || (T <? 2000)) eqn:E; [reflexivity|].
    apply orb_false_iff in E. destruct E as [_ E]. apply Z.ltb_ge in E.
    rewrite bs_parallel_eq by lia. reflexivity.
  - intros T HT. split; [apply bs_parallel_eq; assumption|].
    eexists. apply _bs_spec. lia.
  - unfold Chudnovsky.chudnovsky_pi_decimal_string.
    change (80 <? 0) with false.
    replace (W <? 1) with false by (symmetry; apply Z.ltb_ge; lia).
    replace (Chudnovsky.term_count 80) with (Ok (A:=Z) 7) by (vm_compute; reflexivity).
    cbn [bind]. change (7 <? 2000) with true. rewrite orb_true_r.
    vm_compute. reflexivity.
Qed.

Lemma chudnovsky_workers_agree_witness :
  0 <= 80 /\ 1 <= 4 /\
  Chudnovsky.chudnovsky_pi_decimal_string 80 4 =
  Chudnovsky.chudnovsky_pi_decimal_string 80 1.
Proof.
  split; [lia|]. split; [lia|].
  apply (chudnovsky_workers_agree 80 4); lia.
Defined.

(** ** BBP digit extraction *)

Lemma mapM_compose {A B C : Type} (f : A -> res B) (g : B -> res C) xs ds :
  map f xs = map Ok ds ->
  mapM (fun i => d <- f i ;; g d) xs = mapM g ds.
Proof.
  revert ds. induction xs as [|x xs IH]; intros [|d ds] H; try discriminate.
  - reflexivity.
  - cbn [map] in H. injection H as Hx Hxs.
    cbn [mapM]. rewrite Hx. cbn [bind]. now rewrite (IH ds Hxs).
Qed.

(** The sixteen digits, by evaluation. *)
Lemma hex_digits_0_15 :
  map Bbp.pi_hex_digit (zrange 0 16) = map Ok Bbp.hex_prefix.
Proof. vm_cast_no_check (eq_refl (map (@Ok Z) Bbp.hex_prefix)). Qed.

(** C6: the hex digits of pi at positions 0..15 are 2,4,3,F,6,A,8,8,8,5,A,3,
    0,8,D,3, so [pi_hex_digits 0 16] returns 243F6A8885A308D3, and
    [pi_hex_digit] raises ValueError for every negative position. *)
Theorem bbp_first_16_hex_digits :
  Bbp.pi_hex_digits 0 16 = Ok "243F6A8885A308D3" /\
  map Bbp.pi_hex_digit (zrange 0 16) = map Ok Bbp.hex_prefix /\
  forall n, n < 0 -> Bbp.pi_hex_digit n = Raise (ValueError "n must be >= 0").
Proof.
  split; [|split].
  - unfold Bbp.pi_hex_digits.
    change (0 <? 0) with false. change (16 <? 0) with false. cbv iota.
    change (fun i => d <- Bbp.pi_hex_digit (0 + i) ;; str_index "0123456789ABCDEF" d)
      with (fun i => d <- Bbp.pi_hex_digit i ;; str_index "0123456789ABCDEF" d).
    rewrite (mapM_compose Bbp.pi_hex_digit (str_index "0123456789ABCDEF")
               (zrange 0 16) Bbp.hex_prefix hex_digits_0_15).
    try reflexivity.
  - exact hex_digits_0_15.
  - intros n Hn. unfold Bbp.pi_hex_digit.
    replace (n <? 0) with true by (symmetry; apply Z.ltb_lt; assumption).
    reflexivity.
Qed.

Lemma bbp_first_16_hex_digits_witness :
  -1 < 0 /\ Bbp.pi_hex_digit (-1) = Raise (ValueError "n must be >= 0").
Proof.
  split; [lia|].
  apply (proj2 (proj2 bbp_first_16_hex_digits) (-1)). lia.
Defined.

(** ** Bytes and hexadecimal *)

Lemma bytes_eqb_eq a b : bytes_eqb a b = true <-> a = b.
Proof.
  unfold bytes_eqb. rewrite String.eqb_eq. split; [|congruence].
  intros H. apply (f_equal list_byte_of_string) in H.
  now rewrite !list_byte_of_string_of_list_byte in H.
Qed.

Lemma bytes_eqb_refl a : bytes_eqb a a = true.
Proof. now apply bytes_eqb_eq. Qed.

Lemma Z_of_byte_range b : 0 <= Z_of_byte b < 256.
Proof.
  unfold Z_of_byte. pose proof (Byte.to_N_bounded b). lia.
Qed.

Lemma byte_of_Z_of_byte b : byte_of_Z (Z_of_byte b) = b.
Proof.
  unfold byte_of_Z. rewrite Z.mod_small by apply Z_of_byte_range.
  unfold Z_of_byte. rewrite N2Z.id. now rewrite Byte.of_to_N.
Qed.

Lemma Z_of_byte_of_Z z : Z_of_byte (byte_of_Z z) = z mod 256.
Proof.
  unfold byte_of_Z, Z_of_byte.
  pose proof (Z.mod_pos_bound z 256 ltac:(lia)) as Hb.
  destruct (Byte.of_N (Z.to_N (z mod 256))) as [b|] eqn:E.
  - apply Byte.to_of_N in E. rewrite E. lia.
  - apply Byte.of_N_None_iff in E. lia.
Qed.

Lemma hex_pair_roundtrip x :
  hex_value (hex_char (Z_of_byte x / 16)) = Some (Z_of_byte x / 16) /\
  hex_value (hex_char (Z_of_byte x mod 16)) = Some (Z_of_byte x mod 16).
Proof. destruct x; split; reflexivity. Qed.

Lemma fromhex_hexlify b : fromhex (hexlify b) = Ok b.
Proof.
  induction b as [|x b IH]; [reflexivity|].
  cbn [hexlify fromhex].
  destruct (hex_pair_roundtrip x) as [-> ->]. rewrite IH. cbn [bind].
  rewrite <- (Z.div_mod (Z_of_byte x) 16) by lia.
  now rewrite byte_of_Z_of_byte.
Qed.

Lemma be_encode_length w n : List.length (be_encode w n) = w.
Proof.
  revert n. induction w as [|w IH]; intros n; [reflexivity|].
  cbn [be_encode]. rewrite length_app, IH. cbn. lia.
Qed.

Lemma be_decode_snoc b x : be_decode (b ++ [x]) = be_decode b * 256 + Z_of_byte x.
Proof. unfold be_decode. now rewrite fold_left_app. Qed.

Lemma be_decode_encode w n :
  0 <= n < 256 ^ Z.of_nat w -> be_decode (be_encode w n) = n.
Proof.
  revert n. induction w as [|w IH]; intros n Hn.
  - cbn in *. unfold be_decode. cbn. lia.
  - cbn [be_encode]. rewrite be_decode_snoc, Z_of_byte_of_Z.
    rewrite Nat2Z.inj_succ, Z.pow_succ_r in Hn by lia.
    rewrite IH.
    + pose proof (Z.div_mod n 256 ltac:(lia)). lia.
    + split; [apply Z.div_pos; lia|]. apply Z.div_lt_upper_bound; lia.
Qed.

(** ** The model satisfies the assumptions *)

Lemma pad_length n b : List.length (Model.pad n b) = n.
Proof.
  unfold Model.pad. rewrite length_firstn, length_app, repeat_length. lia.
Qed.

Lemma model_aead_roundtrip a key nonce data aad :
  Model.aead_decrypt a key nonce (Model.aead_encrypt a key nonce data aad) aad
  = Ok data.
Proof.
  unfold Model.aead_decrypt, Model.aead_encrypt.
  rewrite length_app, pad_length.
  replace (List.length data + 16 <? 16)%nat with false
    by (symmetry; apply Nat.ltb_ge; lia).
  replace (List.length data + 16 - 16)%nat with (List.length data + 0)%nat by lia.
  rewrite skipn_app, firstn_app.
  rewrite Nat.add_0_r, skipn_all, firstn_all, Nat.sub_diag. cbn [skipn firstn app].
  rewrite bytes_eqb_refl. now rewrite app_nil_r.
Qed.

Lemma read_unary_unary n rest :
  Model.read_unary (Model.unary n ++ rest) = Some (n, rest).
Proof.
  induction n as [|n IH]; [reflexivity|].
  cbn [Model.unary app Model.read_unary]. now rewrite IH.
Qed.

Lemma read_bool_enc b rest :
  Model.read_bool (Model.enc_bool b ++ rest) = Some (b, rest).
Proof. destruct b; reflexivity. Qed.

Lemma read_str_enc s rest :
  Model.read_str (Model.enc_str s ++ rest) = Some (s, rest).
Proof.
  unfold Model.read_str, Model.enc_str.
  rewrite <- app_assoc, read_unary_unary, length_app.
  replace (_ <=? _)%nat with true by (symmetry; apply Nat.leb_le; lia).
  rewrite firstn_app, skipn_app, firstn_all, skipn_all, Nat.sub_diag.
  cbn [firstn skipn app]. rewrite app_nil_r.
  now rewrite string_of_list_byte_of_string.
Qed.

Lemma read_val_enc v rest :
  Model.read_val (Model.enc_val v ++ rest) = Some (v, rest).
Proof.
  destruct v as [|b|z|s|t s]; cbn [Model.enc_val app Model.read_val].
  - reflexivity.
  - now rewrite read_bool_enc.
  - rewrite <- app_assoc, read_bool_enc, read_unary_unary.
    do 3 f_equal. rewrite Zabs2Nat.id_abs. destruct (z <? 0) eqn:E.
    + apply Z.ltb_lt in E. lia.
    + apply Z.ltb_ge in E. lia.
  - now rewrite read_str_enc.
  - now rewrite <- app_assoc, read_bool_enc, read_str_enc.
Qed.

Lemma read_dict_enc d :
  forall fuel rest, (List.length d < fuel)%nat ->
    Model.read_dict fuel (Model.enc_dict d ++ rest) = Some (d, rest).
Proof.
  induction d as [|[k v] d IH]; intros fuel rest Hf;
    (destruct fuel as [|fuel]; [cbn in Hf; lia|]).
  - reflexivity.
  - cbn [Model.enc_dict app Model.read_dict].
    rewrite <- !app_assoc, read_str_enc, read_val_enc.
    rewrite IH by (cbn in Hf; lia). reflexivity.
Qed.

Lemma enc_dict_length d : (List.length d < List.length (Model.enc_dict d))%nat.
Proof.
  induction d as [|[k v] d IH]; cbn [Model.enc_dict List.length].
  - lia.
  - rewrite !length_app. lia.
Qed.

Lemma model_json_roundtrip d :
  Model.json_loads (Model.json_dumps d) = Ok (JObject d).
Proof.
  unfold Model.json_loads, Model.json_dumps.
  rewrite <- (app_nil_r (Model.enc_dict d)) at 2.
  rewrite read_dict_enc; [reflexivity|].
  pose proof (enc_dict_length d). lia.
Qed.

Lemma model_b64_roundtrip b : Model.b64decode (Model.b64encode b) = Ok b.
Proof.
  unfold Model.b64decode, Model.b64encode, decode_utf8, encode_utf8.
  rewrite string_of_list_byte_of_string. apply fromhex_hexlify.
Qed.

Lemma hex_char_ascii d : (Z_of_byte (byte_of_ascii (hex_char d)) <? 128) = true.
Proof.
  unfold hex_char. generalize (Z.to_nat d). intros n.
  do 16 (destruct n as [|n]; [reflexivity|]). reflexivity.
Qed.

Lemma hexlify_ascii b : is_ascii (hexlify b) = true.
Proof.
  unfold is_ascii. induction b as [|x b IH]; [reflexivity|].
  unfold list_byte_of_string in *.
  cbn [hexlify list_ascii_of_string map forallb]. now rewrite !hex_char_ascii, IH.
Qed.

#[export] Instance model_externals_ok : ExternalsOk model_externals.
Proof.
  constructor.
  - intros b. apply pad_length.
  - intros pw salt. apply pad_length.
  - apply model_aead_roundtrip.
  - intros a key nonce data aad. cbn [aead_encrypt model_externals].
    unfold Model.aead_encrypt. rewrite length_app, pad_length. reflexivity.
  - reflexivity.
  - intros t b. cbn [gzip_compress model_externals].
    unfold Model.gzip_compress. lia.
  - intros d _. apply model_json_roundtrip.
  - apply model_b64_roundtrip.
  - intros b. cbn [b64encode model_externals]. unfold Model.b64encode, decode_utf8, encode_utf8.
    rewrite string_of_list_byte_of_string. apply hexlify_ascii.
  - intros [|x b] Hb; [congruence|]. cbn [b64encode model_externals].
    unfold Model.b64encode, encode_utf8, list_byte_of_string.
    cbn [hexlify list_ascii_of_string map]. discriminate.
Qed.

(** ** The chunk container *)

Section ChunkedFacts.
Import Chunked.
Context {E : Externals}.

Lemma mem_encryptions_not_none e :
  mem_string e encryptions = true -> String.eqb e "none" = false.
Proof.
  unfold mem_string, encryptions. cbn [existsb]. rewrite orb_false_r.
  intros H. apply orb_true_iff in H. destruct H as [H|H];
    apply String.eqb_eq in H; subst e; reflexivity.
Qed.

Lemma writer_init_bad_compression header compression encryption password w :
  mem_string (strip (lower (or_none compression))) compressions = false ->
  writer_init header compression encryption password w
  = Raise (ValueError "unsupported compression").
Proof. intros H. unfold writer_init. now rewrite H. Qed.

Lemma writer_init_bad_encryption header compression encryption password w :
  mem_string (strip (lower (or_none encryption))) ("none" :: encryptions) = false ->
  exists msg,
    writer_init header compression encryption password w = Raise (ValueError msg).
Proof.
  intros H. unfold writer_init.
  destruct (mem_string (strip (lower (or_none compression))) compressions);
    cbn [negb]; [|eauto].
  unfold mem_string in H. cbn [existsb] in H. apply orb_false_iff in H.
  destruct H as [Hn He]. rewrite Hn. cbn [negb].
  destruct (String.eqb password ""); [cbn [bind]; eauto|].
  unfold mem_string. rewrite He. cbn [negb bind]. eauto.
Qed.

Lemma writer_init_no_password header compression encryption w :
  mem_string (strip (lower (or_none encryption))) encryptions = true ->
  exists msg,
    writer_init header compression encryption "" w = Raise (ValueError msg).
Proof.
  intros H. unfold writer_init.
  destruct (mem_string (strip (lower (or_none compression))) compressions);
    cbn [negb]; [|eauto].
  rewrite (mem_encryptions_not_none _ H). cbn [negb String.eqb bind]. eauto.
Qed.

Lemma writer_init_accepts header compression encryption password w wr w' :
  writer_init header compression encryption password w = Ok (wr, w') ->
  mem_string (strip (lower (or_none compression))) compressions = true /\
  mem_string (strip (lower (or_none encryption))) ("none" :: encryptions) = true /\
  (strip (lower (or_none encryption)) <> "none" -> password <> "").
Proof.
  unfold writer_init.
  destruct (mem_string (strip (lower (or_none compression))) compressions);
    cbn [negb]; [|discriminate].
  intros H. split; [reflexivity|].
  unfold mem_string at 1. cbn [existsb].
  destruct (String.eqb (strip (lower (or_none encryption))) "none") eqn:En.
  - split; [reflexivity|]. apply String.eqb_eq in En. congruence.
  - cbn [negb orb] in *.
    destruct (String.eqb password "") eqn:Ep; [discriminate|].
    destruct (mem_string (strip (lower (or_none encryption))) encryptions) eqn:Em;
      [|discriminate].
    split; [exact Em|]. intros _ ->. discriminate.
Qed.

End ChunkedFacts.




Section ReaderFacts.
Import Chunked.
Context {E : Externals}.

Lemma file_read_app a rest : file_read (blen a) (a ++ rest) = (a, rest).
Proof.
  unfold file_read, blen.
  replace (Z.of_nat (List.length a) <? 0) with false
    by (symmetry; apply Z.ltb_ge; lia).
  rewrite Nat2Z.id, firstn_app, skipn_app, firstn_all, skipn_all, Nat.sub_diag.
  cbn [firstn skipn]. now rewrite app_nil_r.
Qed.

Lemma file_read_len n a rest :
  blen a = n -> file_read n (a ++ rest) = (a, rest).
Proof. intros <-. apply file_read_app. Qed.

Lemma blen_be_encode w n : blen (be_encode w n) = Z.of_nat w.
Proof. unfold blen. now rewrite be_encode_length. Qed.

Lemma blen_app a b : blen (a ++ b) = blen a + blen b.
Proof. unfold blen. rewrite length_app. lia. Qed.

Lemma blen_nonneg a : 0 <= blen a.
Proof. unfold blen. lia. Qed.

(** Opening a stream that starts with the magic, a length and that many
    header bytes comes down to [reader_setup] on the parsed header. *)
Lemma reader_init_parse hb rest password :
  blen hb < 2 ^ 32 ->
  reader_init (_MAGIC ++ be_encode 4 (blen hb) ++ hb ++ rest) password
  = (header <- (doc <- json_loads hb ;; as_header doc) ;;
     reader_setup header rest password).
Proof.
  intros Hlen. unfold reader_init.
  rewrite file_read_app, bytes_eqb_refl. cbn [negb].
  rewrite (file_read_len 4) by apply blen_be_encode.
  rewrite blen_be_encode. change (Z.of_nat 4 =? 4) with true. cbn [negb].
  rewrite be_decode_encode by (pose proof (blen_nonneg hb); change (256 ^ Z.of_nat 4) with (2 ^ 32); lia).
  rewrite file_read_app, Z.eqb_refl. reflexivity.
Qed.

Lemma reader_setup_mismatch header f password :
  truthy (get "header_hash" header) = true ->
  get "header_hash" header <> VStr (_header_hash_hex header) ->
  reader_setup header f password = Raise (ValueError "header hash mismatch").
Proof.
  intros Ht Hne. unfold reader_setup. rewrite Ht.
  replace (is_str (get "header_hash" header) (_header_hash_hex header)) with false;
    [reflexivity|].
  symmetry. destruct (get "header_hash" header) as [| | |s|]; try reflexivity.
  cbn [is_str]. apply String.eqb_neq. congruence.
Qed.

(** Without a header_hash (or with a falsy one) the comparison is skipped; a
    header that names no compression, encryption or nonce length then opens
    as an unencrypted, uncompressed container. *)
Lemma reader_setup_unchecked header f password :
  truthy (get "header_hash" header) = false ->
  get "compression" header = VNone ->
  get "encryption" header = VNone ->
  get "nonce_len" header = VNone ->
  reader_setup header f password
  = Ok (mkReader password f header
          (sha256 (_header_bytes (dict_pop "header_hash" header)))
          "none" "none" 0 None 0).
Proof.
  intros Ht Hc He Hn. unfold reader_setup, kind_field, int_field.
  rewrite Ht, Hc, He, Hn. cbn [andb truthy].
  unfold _header_hash_hex. rewrite fromhex_hexlify. reflexivity.
Qed.

End ReaderFacts.




Section DictFacts.

Lemma dict_get_set k k' v d :
  dict_get k (dict_set k' v d) = if String.eqb k k' then Some v else dict_get k d.
Proof.
  induction d as [|[k0 v0] d IH]; cbn [dict_set dict_get].
  - reflexivity.
  - destruct (String.eqb k' k0) eqn:E0; cbn [dict_get].
    + apply String.eqb_eq in E0. subst k0.
      destruct (String.eqb k k'); reflexivity.
    + rewrite IH. destruct (String.eqb k k0) eqn:E1; [|reflexivity].
      apply String.eqb_eq in E1. subst k0.
      rewrite String.eqb_sym in E0. now rewrite E0.
Qed.

Lemma dict_pop_set k v d : dict_pop k (dict_set k v d) = dict_pop k d.
Proof.
  induction d as [|[k0 v0] d IH]; cbn [dict_set dict_pop].
  - now rewrite String.eqb_refl.
  - destruct (String.eqb k k0) eqn:E0; cbn [dict_pop]; rewrite E0.
    + reflexivity.
    + now rewrite IH.
Qed.

Lemma dict_set_keys k v d :
  map fst (dict_set k v d) = map fst d \/
  (~ In k (map fst d) /\ map fst (dict_set k v d) = map fst d ++ [k]).
Proof.
  induction d as [|[k0 v0] d IH]; cbn [dict_set map fst].
  - right. split; [intros []| reflexivity].
  - destruct (String.eqb k k0) eqn:E0; cbn [map fst].
    + now left.
    + apply String.eqb_neq in E0. destruct IH as [IH|[Hn IH]].
      * left. now rewrite IH.
      * right. split; [|now rewrite IH].
        cbn [In]. intros [F|F]; [congruence|]. now apply Hn.
Qed.

Lemma dict_set_is_dict k v d : is_dict d -> is_dict (dict_set k v d).
Proof.
  unfold is_dict. intros H. destruct (dict_set_keys k v d) as [->|[Hn ->]].
  - assumption.
  - apply NoDup_app; [assumption | repeat constructor; intros [] | ].
    intros x Hx [<-|[]]. now apply Hn.
Qed.

Lemma dict_get_In k d : In k (map fst d) -> dict_get k d <> None.
Proof.
  induction d as [|[k0 v0] d IH]; cbn [map fst In dict_get]; [intros []|].
  intros [->|H].
  - rewrite String.eqb_refl. discriminate.
  - destruct (String.eqb k k0); [discriminate | now apply IH].
Qed.

End DictFacts.

(** Decide the comparisons of string literals that show up after rewriting
    with [dict_get_set]. *)
Ltac eqb_literals :=
  repeat match goal with
    | |- context [String.eqb ?a ?b] =>
        let r := eval vm_compute in (String.eqb a b) in
        match r with
        | true => change (String.eqb a b) with true
        | false => change (String.eqb a b) with false
        end
    end.

Section RoundTripFacts.
Import Chunked.
Context {E : Externals} {EOk : ExternalsOk E}.

Lemma blen_sha256 b : blen (sha256 b) = 32.
Proof. unfold blen. now rewrite sha256_length. Qed.

Lemma pack_u32_ok n : 0 <= n < 2 ^ 32 -> pack_u32 n = Ok (be_encode 4 n).
Proof.
  intros H. unfold pack_u32.
  replace (0 <=? n) with true by (symmetry; apply Z.leb_le; lia).
  now replace (n <? 2 ^ 32) with true by (symmetry; apply Z.ltb_lt; lia).
Qed.

Lemma to_bytes8_ok n : 0 <= n < 2 ^ 64 -> to_bytes8 n = Ok (be_encode 8 n).
Proof.
  intros H. unfold to_bytes8.
  replace (0 <=? n) with true by (symmetry; apply Z.leb_le; lia).
  now replace (n <? 2 ^ 64) with true by (symmetry; apply Z.ltb_lt; lia).
Qed.

Lemma fromhex_header_hash h :
  fromhex (_header_hash_hex h)
  = Ok (sha256 (_header_bytes (dict_pop "header_hash" h))).
Proof. unfold _header_hash_hex. apply fromhex_hexlify. Qed.

(** Opening the writer. *)
Lemma writer_init_ok metadata c e password w :
  (c = "none" \/ c = "gzip") ->
  (e = "none" \/ (e = "aes-256-gcm" /\ password <> "")) ->
  blen (json_dumps (written_header metadata c e w)) < 2 ^ 32 ->
  exists wr w',
    writer_init metadata c e password w = Ok (wr, w') /\
    w_compression wr = c /\ w_encryption wr = e /\
    w_header wr = written_header metadata c e w /\
    w_file wr = _MAGIC ++ be_encode 4 (blen (json_dumps (w_header wr))) ++
                json_dumps (w_header wr) /\
    w_index wr = 0 /\
    w_header_hash_bytes wr
      = sha256 (_header_bytes (dict_pop "header_hash" (w_header wr))) /\
    (e = "none" -> w_key wr = None) /\
    (e <> "none" ->
     w_nonce_len wr = 12 /\
     w_key wr = Some (Crypto._kdf_scrypt password (fst (urandom 16 w)))).
Proof.
  intros Hc He Hlen. unfold writer_init.
  assert (Hcn : strip (lower (or_none c)) = c)
    by (destruct Hc as [->| ->]; reflexivity).
  assert (Hen : strip (lower (or_none e)) = e)
    by (destruct He as [->|[-> _]]; reflexivity).
  rewrite Hcn, Hen.
  replace (mem_string c compressions) with true
    by (destruct Hc as [->| ->]; reflexivity).
  cbn [negb].
  pose proof (blen_nonneg (json_dumps (written_header metadata c e w))) as Hnn.
  unfold written_header in *. cbv zeta in *.
  destruct He as [->|[-> Hpw]].
  - change (String.eqb "none" "none") with true in *. cbv iota in *.
    cbn [negb bind].
    rewrite fromhex_header_hash. cbn [bind].
    rewrite pack_u32_ok by (unfold _header_bytes; lia). cbn [bind].
    eexists _, _. split; [reflexivity|]. cbn [w_compression w_encryption w_header
      w_file w_index w_header_hash_bytes w_key w_nonce_len].
    rewrite dict_pop_set.
    repeat split; try reflexivity; intros; congruence.
  - change (String.eqb "aes-256-gcm" "none") with false in *. cbv iota in *.
    cbn [negb].
    replace (String.eqb password "") with false
      by (symmetry; now apply String.eqb_neq).
    change (mem_string "aes-256-gcm" encryptions) with true. cbn [negb].
    destruct (urandom 16 w) as [salt w1] eqn:Hu. cbn [bind fst] in *.
    rewrite fromhex_header_hash. cbn [bind].
    rewrite pack_u32_ok by (unfold _header_bytes; lia). cbn [bind].
    eexists _, _. split; [reflexivity|]. cbn [w_compression w_encryption w_header
      w_file w_index w_header_hash_bytes w_key w_nonce_len].
    rewrite dict_pop_set.
    repeat split; try reflexivity; intros; congruence.
Qed.

(** Writing one chunk without compression or encryption. *)
Lemma writer_write_plain raw wr w :
  raw <> [] -> blen raw < 2 ^ 32 ->
  w_compression wr = "none" -> w_encryption wr = "none" ->
  exists wr',
    writer_write raw wr w = Ok (wr', w) /\
    w_file wr' = w_file wr ++ chunk_record raw [] raw /\
    w_index wr' = w_index wr + 1 /\
    w_compression wr' = "none" /\ w_encryption wr' = "none" /\
    w_header wr' = w_header wr.
Proof.
  intros Hraw Hlen Hc He. unfold writer_write.
  destruct raw as [|x raw]; [congruence|].
  rewrite Hc, He. change (is_gzip "none") with false.
  change (String.eqb "none" "none") with true. cbn [negb bind].
  pose proof (blen_nonneg (x :: raw)).
  rewrite !pack_u32_ok by lia. cbn [bind].
  eexists. split; [reflexivity|].
  cbn [w_file w_index w_compression w_encryption w_header].
  unfold chunk_record. repeat split; reflexivity.
Qed.

(** Writing one chunk with gzip and AES-256-GCM. *)
Lemma writer_write_sealed raw wr w key :
  raw <> [] -> blen raw < 2 ^ 30 ->
  w_compression wr = "gzip" -> w_encryption wr = "aes-256-gcm" ->
  w_key wr = Some key -> w_nonce_len wr = 12 -> 0 <= w_index wr < 2 ^ 64 ->
  exists wr' w' nonce now,
    writer_write raw wr w = Ok (wr', w') /\
    blen nonce = 12 /\
    w_file wr' = w_file wr ++
      chunk_record raw nonce
        (aead_encrypt AESGCM key nonce (gzip_compress now raw)
           (w_header_hash_bytes wr ++ be_encode 8 (w_index wr))) /\
    w_index wr' = w_index wr + 1 /\
    w_compression wr' = "gzip" /\ w_encryption wr' = "aes-256-gcm" /\
    w_key wr' = Some key /\ w_nonce_len wr' = 12 /\
    w_header wr' = w_header wr /\
    w_header_hash_bytes wr' = w_header_hash_bytes wr.
Proof.
  intros Hraw Hlen Hc He Hk Hn Hi. unfold writer_write.
  destruct raw as [|x raw]; [congruence|].
  rewrite Hc, He, Hk, Hn. change (is_gzip "gzip") with true.
  change (String.eqb "aes-256-gcm" "none") with false. cbn [negb].
  destruct (time w) as [now w1] eqn:Ht.
  destruct (urandom (Z.to_nat 12) w1) as [nonce w2] eqn:Hu.
  rewrite to_bytes8_ok by assumption. cbn [bind].
  unfold _encrypt_chunk. change (cipher "aes-256-gcm") with AESGCM.
  pose proof (blen_nonneg (x :: raw)).
  rewrite pack_u32_ok by lia. cbn [bind].
  rewrite pack_u32_ok.
  2:{ unfold blen in *. rewrite aead_length.
      pose proof (gzip_length now (x :: raw)). lia. }
  cbn [bind].
  eexists _, _, nonce, now. split; [reflexivity|].
  cbn [w_file w_index w_compression w_encryption w_header w_key w_nonce_len
       w_header_hash_bytes].
  unfold chunk_record.
  repeat split; try reflexivity.
  apply (f_equal fst) in Hu. cbn [fst urandom] in Hu. subst nonce.
  unfold blen. rewrite length_map, length_seq. reflexivity.
Qed.

End RoundTripFacts.

Section ReadBackFacts.
Import Chunked.
Context {E : Externals} {EOk : ExternalsOk E}.

Lemma hexlify_nonempty b : b <> [] -> hexlify b <> "".
Proof. destruct b; [congruence | discriminate]. Qed.

Lemma header_hash_nonempty h : String.eqb (_header_hash_hex h) "" = false.
Proof.
  apply String.eqb_neq, hexlify_nonempty. intros F.
  apply (f_equal (@List.length byte)) in F. rewrite sha256_length in F.
  discriminate.
Qed.

Lemma written_header_hash metadata c e w :
  exists h, written_header metadata c e w
            = dict_set "header_hash" (VStr (_header_hash_hex h)) h /\
            _header_hash_hex (written_header metadata c e w) = _header_hash_hex h.
Proof.
  unfold written_header. cbv zeta. eexists. split; [reflexivity|].
  unfold _header_hash_hex at 1. now rewrite dict_pop_set.
Qed.

Lemma written_header_get metadata c e w k :
  ~ In k reserved_keys ->
  dict_get k (written_header metadata c e w) = dict_get k metadata.
Proof.
  intros Hk. unfold written_header. cbv zeta.
  assert (N : forall r, In r reserved_keys -> String.eqb k r = false).
  { intros r Hr. apply String.eqb_neq. intros ->. now apply Hk. }
  destruct (String.eqb e "none");
    rewrite !dict_get_set, ?N; try reflexivity; cbn; tauto.
Qed.

Lemma written_header_is_dict metadata c e w :
  is_dict metadata -> is_dict (written_header metadata c e w).
Proof.
  intros H. unfold written_header. cbv zeta.
  destruct (String.eqb e "none"); repeat apply dict_set_is_dict; assumption.
Qed.

(** The reader set up on a header the writer produced. *)
Lemma reader_setup_written metadata c e password w f :
  unreserved metadata ->
  (c = "none" \/ c = "gzip") ->
  (e = "none" \/ (e = "aes-256-gcm" /\ password <> "")) ->
  exists r,
    reader_setup (written_header metadata c e w) f password = Ok r /\
    r_file r = f /\ r_header r = written_header metadata c e w /\
    r_header_hash_bytes r
      = sha256 (_header_bytes (dict_pop "header_hash" (written_header metadata c e w))) /\
    r_compression r = c /\ r_encryption r = e /\ r_index r = 0 /\
    (e <> "none" ->
     r_nonce_len r = 12 /\
     r_key r = Some (Crypto._kdf_scrypt password (fst (urandom 16 w)))).
Proof.
  intros Hm Hc He. unfold reader_setup.
  destruct (written_header_hash metadata c e w) as (h & Hw & Hh).
  assert (Hget : get "header_hash" (written_header metadata c e w)
                 = VStr (_header_hash_hex h)).
  { unfold get. rewrite Hw, dict_get_set. now rewrite String.eqb_refl. }
  rewrite Hget, Hh. cbn [truthy is_str].
  rewrite String.eqb_refl, header_hash_nonempty. cbn [negb andb].
  rewrite <- Hh, fromhex_header_hash. cbn [bind].
  assert (Gc : get "compression" (written_header metadata c e w) = VStr c).
  { unfold get, written_header. cbv zeta.
    destruct (String.eqb e "none"); rewrite !dict_get_set; eqb_literals;
      reflexivity. }
  assert (Ge : get "encryption" (written_header metadata c e w) = VStr e).
  { unfold get, written_header. cbv zeta.
    destruct (String.eqb e "none"); rewrite !dict_get_set; eqb_literals;
      reflexivity. }
  unfold kind_field. rewrite Gc, Ge.
  replace (truthy (VStr c)) with true by (destruct Hc as [->| ->]; reflexivity).
  replace (truthy (VStr e)) with true by (destruct He as [->|[-> _]]; reflexivity).
  replace (strip (lower c)) with c by (destruct Hc as [->| ->]; reflexivity).
  replace (strip (lower e)) with e by (destruct He as [->|[-> _]]; reflexivity).
  cbn [bind].
  replace (mem_string c compressions) with true
    by (destruct Hc as [->| ->]; reflexivity).
  cbn [negb]. unfold int_field.
  destruct He as [->|[-> Hpw]].
  - assert (Gn : get "nonce_len" (written_header metadata c "none" w) = VNone).
    { unfold get, written_header. cbv zeta.
      change (String.eqb "none" "none") with true. cbv iota.
      rewrite !dict_get_set. eqb_literals. cbv iota.
      rewrite Hm by (cbn; tauto). reflexivity. }
    rewrite Gn. cbn [truthy bind]. change (String.eqb "none" "none") with true.
    cbn [negb bind]. eexists. split; [reflexivity|].
    cbn [r_file r_header r_header_hash_bytes r_compression r_encryption r_index
         r_nonce_len r_key].
    repeat split; try reflexivity; intros; congruence.
  - assert (Gn : get "nonce_len" (written_header metadata c "aes-256-gcm" w)
                 = VInt 12).
    { unfold get, written_header. cbv zeta.
      change (String.eqb "aes-256-gcm" "none") with false. cbv iota.
      rewrite !dict_get_set. eqb_literals. reflexivity. }
    assert (Gs : get "salt" (written_header metadata c "aes-256-gcm" w)
                 = VStr (decode_utf8 (b64encode (fst (urandom 16 w))))).
    { unfold get, written_header. cbv zeta.
      change (String.eqb "aes-256-gcm" "none") with false. cbv iota.
      rewrite !dict_get_set. eqb_literals. reflexivity. }
    rewrite Gn, Gs. cbn [truthy bind].
    change (12 =? 0) with false.
    change (String.eqb "aes-256-gcm" "none") with false. cbn [negb].
    replace (String.eqb password "") with false
      by (symmetry; now apply String.eqb_neq).
    assert (Hne : String.eqb (decode_utf8 (b64encode (fst (urandom 16 w)))) ""
                  = false).
    { apply String.eqb_neq. intros F.
      apply (f_equal encode_utf8) in F. unfold encode_utf8, decode_utf8 in F.
      rewrite list_byte_of_string_of_list_byte in F. cbn in F.
      revert F. apply b64_nonempty. discriminate. }
    rewrite Hne. cbn [negb]. rewrite b64_ascii.
    unfold encode_utf8, decode_utf8.
    rewrite list_byte_of_string_of_list_byte, b64_roundtrip. cbn [bind].
    eexists. split; [reflexivity|].
    cbn [r_file r_header r_header_hash_bytes r_compression r_encryption r_index
         r_nonce_len r_key].
    repeat split; reflexivity.
Qed.

End ReadBackFacts.

Section ChunkFacts.
Import Chunked.
Context {E : Externals} {EOk : ExternalsOk E}.

Lemma be_encode_4_cons n : exists a b c d, be_encode 4 n = [a; b; c; d].
Proof. cbn [be_encode app]. eauto. Qed.

Lemma file_read_8 a rest n m :
  file_read 8 ((be_encode 4 n ++ be_encode 4 m ++ a) ++ rest)
  = (be_encode 4 n ++ be_encode 4 m, a ++ rest).
Proof.
  rewrite <- !app_assoc.
  rewrite (app_assoc (be_encode 4 n)). apply file_read_len.
  now rewrite blen_app, !blen_be_encode.
Qed.

Lemma match_nonempty {A B : Type} (l : list A) (x y : B) :
  l <> [] -> match l with [] => x | _ :: _ => y end = y.
Proof. destruct l; [congruence | reflexivity]. Qed.

Lemma firstn_be4 n b : firstn 4 (be_encode 4 n ++ b) = be_encode 4 n.
Proof. destruct (be_encode_4_cons n) as (x & y & z & t & ->). reflexivity. Qed.

Lemma skipn_be4 n b : skipn 4 (be_encode 4 n ++ b) = b.
Proof. destruct (be_encode_4_cons n) as (x & y & z & t & ->). reflexivity. Qed.

Lemma reader_next_eof r :
  r_file r = [] -> reader_next r = Ok (None, r).
Proof. intros H. destruct r. cbn in H. subst. reflexivity. Qed.

(** Reading back one chunk record.  [data] is what the record's payload
    decodes to under the reader's settings. *)
Lemma reader_next_record r raw nonce payload rest :
  r_file r = chunk_record raw nonce payload ++ rest ->
  blen raw < 2 ^ 32 -> blen payload < 2 ^ 32 ->
  (r_encryption r = "none" /\ nonce = [] /\ r_compression r = "none" /\
   payload = raw
   \/
   exists key now,
     r_encryption r = "aes-256-gcm" /\ r_compression r = "gzip" /\
     blen nonce = r_nonce_len r /\ 0 <= r_nonce_len r /\
     r_key r = Some key /\ 0 <= r_index r < 2 ^ 64 /\
     payload = aead_encrypt AESGCM key nonce (gzip_compress now raw)
                 (r_header_hash_bytes r ++ be_encode 8 (r_index r))) ->
  reader_next r
  = Ok (Some raw,
        mkReader (r_password r) rest (r_header r) (r_header_hash_bytes r)
          (r_compression r) (r_encryption r) (r_nonce_len r) (r_key r)
          (r_index r + 1)).
Proof.
  intros Hf Hraw Hpay Hcfg. unfold reader_next. rewrite Hf.
  unfold chunk_record. rewrite file_read_8.
  rewrite match_nonempty
    by (destruct (be_encode_4_cons (blen raw)) as (a & b & c & d & ->);
        discriminate).
  rewrite blen_app, !blen_be_encode. change (Z.of_nat 4 + Z.of_nat 4 =? 8) with true.
  cbn [negb]. rewrite firstn_be4, skipn_be4.
  pose proof (blen_nonneg raw). pose proof (blen_nonneg payload).
  rewrite !be_decode_encode by (change (256 ^ Z.of_nat 4) with (2 ^ 32); lia).
  rewrite <- !app_assoc.
  rewrite (file_read_len 32) by apply blen_sha256.
  rewrite blen_sha256. change (32 =? 32) with true. cbn [negb].
  destruct Hcfg as [(He & -> & Hc & ->) | (key & now & He & Hc & Hn & Hn0 & Hk & Hi & ->)].
  - rewrite He, Hc. change (String.eqb "none" "none") with true. cbn [negb bind app].
    rewrite file_read_app, Z.eqb_refl. cbn [negb].
    change (is_gzip "none") with false. cbn [bind].
    rewrite Z.eqb_refl, bytes_eqb_refl. reflexivity.
  - rewrite He, Hc, Hk. change (String.eqb "aes-256-gcm" "none") with false.
    cbn [negb].
    rewrite (file_read_len (r_nonce_len r)) by assumption.
    rewrite Hn, Z.eqb_refl. cbn [negb bind].
    rewrite file_read_app, Z.eqb_refl. cbn [negb].
    rewrite to_bytes8_ok by assumption. cbn [bind].
    unfold _decrypt_chunk. change (cipher "aes-256-gcm") with AESGCM.
    rewrite aead_roundtrip. cbn [bind].
    change (is_gzip "gzip") with true. rewrite gzip_roundtrip. cbn [bind].
    rewrite Z.eqb_refl, bytes_eqb_refl. reflexivity.
Qed.

Lemma read_all_two fuel r r1 r2 c1 c2 :
  (3 <= fuel)%nat ->
  reader_next r = Ok (Some c1, r1) ->
  reader_next r1 = Ok (Some c2, r2) ->
  reader_next r2 = Ok (None, r2) ->
  read_all fuel r = Ok [c1; c2].
Proof.
  intros Hf H0 H1 H2.
  destruct fuel as [|[|[|fuel]]]; try lia.
  cbn [read_all]. rewrite H0. cbn [bind]. rewrite H1. cbn [bind].
  rewrite H2. reflexivity.
Qed.

End ChunkFacts.

Section RoundTrip.
Import Chunked.
Context {E : Externals} {EOk : ExternalsOk E}.

Lemma chunk_record_length raw nonce payload :
  (8 <= List.length (chunk_record raw nonce payload))%nat.
Proof.
  unfold chunk_record. rewrite !length_app, !be_encode_length. lia.
Qed.

Lemma roundtrip_plain metadata password w :
  is_dict metadata -> unreserved metadata ->
  blen (json_dumps (written_header metadata "none" "none" w)) < 2 ^ 32 ->
  exists wr0 w0 wr1 w1 wr2 w2 r,
    writer_init metadata "none" "none" password w = Ok (wr0, w0) /\
    writer_write b14 wr0 w0 = Ok (wr1, w1) /\
    writer_write b15 wr1 w1 = Ok (wr2, w2) /\
    reader_init (w_file wr2) password = Ok r /\
    reader_list r = Ok [b14; b15] /\
    r_header r = written_header metadata "none" "none" w.
Proof.
  intros Hd Hm Hlen.
  destruct (writer_init_ok metadata "none" "none" password w)
    as (wr0 & w0 & Hi & Hc0 & He0 & Hh0 & Hf0 & Hx0 & Hb0 & _);
    [now left | now left | assumption |].
  destruct (writer_write_plain b14 wr0 w0)
    as (wr1 & H1 & Hf1 & Hx1 & Hc1 & He1 & Hh1);
    [discriminate | reflexivity | assumption | assumption |].
  destruct (writer_write_plain b15 wr1 w0)
    as (wr2 & H2 & Hf2 & Hx2 & Hc2 & He2 & Hh2);
    [discriminate | reflexivity | assumption | assumption |].
  destruct (reader_setup_written metadata "none" "none" password w
              (chunk_record b14 [] b14 ++ chunk_record b15 [] b15))
    as (r & Hr & Rf & Rh & Rb & Rc & Re & Ri & _);
    [assumption | now left | now left |].
  exists wr0, w0, wr1, w0, wr2, w0, r.
  repeat split; try assumption.
  - rewrite Hf2, Hf1, Hf0, Hh0, <- !app_assoc.
    rewrite reader_init_parse by assumption.
    rewrite json_roundtrip by now apply written_header_is_dict.
    cbn [bind as_header]. exact Hr.
  - unfold reader_list.
    eapply read_all_two.
    + rewrite Rf, length_app.
      pose proof (chunk_record_length b14 [] b14).
      pose proof (chunk_record_length b15 [] b15). lia.
    + apply (reader_next_record r b14 [] b14 (chunk_record b15 [] b15));
        [assumption | reflexivity | reflexivity | left; auto].
    + apply (reader_next_record _ b15 [] b15 []);
        [cbn [r_file]; now rewrite app_nil_r | reflexivity | reflexivity
        | left; cbn [r_encryption r_compression]; auto].
    + apply reader_next_eof. reflexivity.
Qed.

Lemma roundtrip_sealed metadata password w :
  is_dict metadata -> unreserved metadata -> password <> "" ->
  blen (json_dumps (written_header metadata "gzip" "aes-256-gcm" w)) < 2 ^ 32 ->
  exists wr0 w0 wr1 w1 wr2 w2 r,
    writer_init metadata "gzip" "aes-256-gcm" password w = Ok (wr0, w0) /\
    writer_write b14 wr0 w0 = Ok (wr1, w1) /\
    writer_write b15 wr1 w1 = Ok (wr2, w2) /\
    reader_init (w_file wr2) password = Ok r /\
    reader_list r = Ok [b14; b15] /\
    r_header r = written_header metadata "gzip" "aes-256-gcm" w.
Proof.
  intros Hd Hm Hpw Hlen.
  destruct (writer_init_ok metadata "gzip" "aes-256-gcm" password w)
    as (wr0 & w0 & Hi & Hc0 & He0 & Hh0 & Hf0 & Hx0 & Hb0 & _ & Hk0);
    [now right | right; now split | assumption |].
  destruct Hk0 as [Hn0 Hk0]; [discriminate|].
  destruct (writer_write_sealed b14 wr0 w0 _ ltac:(discriminate)
              ltac:(reflexivity) Hc0 He0 Hk0 Hn0 ltac:(rewrite Hx0; lia))
    as (wr1 & w1 & n1 & t1 & H1 & Hl1 & Hf1 & Hx1 & Hc1 & He1 & Hk1 & Hn1 & Hh1 & Hb1).
  destruct (writer_write_sealed b15 wr1 w1 _ ltac:(discriminate)
              ltac:(reflexivity) Hc1 He1 Hk1 Hn1 ltac:(rewrite Hx1, Hx0; lia))
    as (wr2 & w2 & n2 & t2 & H2 & Hl2 & Hf2 & Hx2 & Hc2 & He2 & Hk2 & Hn2 & Hh2 & Hb2).
  rewrite Hb1, Hx1, Hx0 in Hf2. rewrite Hx0 in Hf1.
  rewrite Hb0, Hh0 in Hf1, Hf2.
  set (key := Crypto._kdf_scrypt password (fst (urandom 16 w))) in *.
  set (hhb := sha256 (_header_bytes (dict_pop "header_hash"
                (written_header metadata "gzip" "aes-256-gcm" w)))) in *.
  set (p1 := aead_encrypt AESGCM key n1 (gzip_compress t1 b14)
               (hhb ++ be_encode 8 0)) in *.
  set (p2 := aead_encrypt AESGCM key n2 (gzip_compress t2 b15)
               (hhb ++ be_encode 8 (0 + 1))) in *.
  assert (Hp : forall n t x aad, (List.length x <= 2)%nat ->
             blen (aead_encrypt AESGCM key n (gzip_compress t x) aad) < 2 ^ 32).
  { intros n t x aad Hx. unfold blen. rewrite aead_length.
    pose proof (gzip_length t x). lia. }
  destruct (reader_setup_written metadata "gzip" "aes-256-gcm" password w
              (chunk_record b14 n1 p1 ++ chunk_record b15 n2 p2))
    as (r & Hr & Rf & Rh & Rb & Rc & Re & Ri & Rk);
    [assumption | now right | right; now split |].
  destruct Rk as [Rn Rk]; [discriminate|].
  exists wr0, w0, wr1, w1, wr2, w2, r.
  repeat split; try assumption.
  - rewrite Hf2, Hf1, Hf0, Hh0, <- !app_assoc.
    rewrite reader_init_parse by assumption.
    rewrite json_roundtrip by now apply written_header_is_dict.
    cbn [bind as_header]. exact Hr.
  - unfold reader_list.
    eapply read_all_two.
    + rewrite Rf, length_app.
      pose proof (chunk_record_length b14 n1 p1).
      pose proof (chunk_record_length b15 n2 p2). lia.
    + apply (reader_next_record r b14 n1 p1 (chunk_record b15 n2 p2));
        [assumption | reflexivity | apply Hp; cbn; lia |].
      right. exists key, t1. rewrite Rn, Ri, Rb. fold hhb.
      repeat split; try assumption; try lia.
    + apply (reader_next_record _ b15 n2 p2 []);
        [cbn [r_file]; now rewrite app_nil_r | reflexivity
        | apply Hp; cbn; lia |].
      right. exists key, t2.
      cbn [r_encryption r_compression r_nonce_len r_key r_index
           r_header_hash_bytes].
      rewrite Rn, Ri, Rb. fold hhb.
      repeat split; try assumption; try lia.
    + apply reader_next_eof. reflexivity.
Qed.

End RoundTrip.




(** ** The encryption envelope *)

Section EnvelopeFacts.
Import Crypto.
Context {E : Externals} {EOk : ExternalsOk E}.

(** Turn a list of known length into its elements. *)
Ltac explicit_list l H :=
  repeat (destruct l as [|? l]; [discriminate H|];
          cbn [List.length] in H; apply eq_add_S in H);
  destruct l; [clear H | discriminate H].

(** Decrypting a well-formed envelope comes down to the AEAD's verdict under
    the key derived from the given password, then parsing the metadata. *)
Lemma decrypt_envelope alg_id salt nonce meta_bytes ct password :
  password <> "" ->
  List.length salt = 16%nat -> List.length nonce = 12%nat ->
  blen meta_bytes < 2 ^ 32 ->
  alg_id = _ALG_AESGCM \/ alg_id = _ALG_CHACHA20 ->
  decrypt_blob_v1 (envelope alg_id salt nonce meta_bytes ct) password
  = (pt <- aead_decrypt (cipher_of_id alg_id) (_kdf_scrypt password salt)
             nonce ct meta_bytes ;;
     meta <- json_loads meta_bytes ;;
     Ok (pt, meta)).
Proof.
  intros Hpw Hs Hn Hm Ha. unfold decrypt_blob_v1.
  replace (String.eqb password "") with false
    by (symmetry; now apply String.eqb_neq).
  pose proof (blen_nonneg meta_bytes) as Hm0.
  destruct (be_encode_4_cons (blen meta_bytes)) as (l0 & l1 & l2 & l3 & Hl).
  assert (Hd : be_decode [l0; l1; l2; l3] = blen meta_bytes).
  { rewrite <- Hl. apply be_decode_encode.
    change (256 ^ Z.of_nat 4) with (2 ^ 32). lia. }
  unfold envelope. rewrite Hl.
  explicit_list salt Hs. explicit_list nonce Hn.
  change (blen _MAGIC) with 6.
  match goal with
  | |- context [blen ?b <? 6 + 1 + 16 + 12 + 4] =>
      replace (blen b <? 6 + 1 + 16 + 12 + 4) with false
        by (symmetry; apply Z.ltb_ge; unfold blen; cbn [_MAGIC encode_utf8
              list_byte_of_string list_ascii_of_string map app List.length]; lia)
  end.
  cbn [_MAGIC encode_utf8 list_byte_of_string list_ascii_of_string map app].
  unfold slice.
  change (Z.to_nat (6 - 0)) with 6%nat. change (Z.to_nat 0) with 0%nat.
  change (Z.to_nat 6) with 6%nat.
  change (Z.to_nat (6 + 1)) with 7%nat.
  change (Z.to_nat (6 + 1 + 16 - (6 + 1))) with 16%nat.
  change (Z.to_nat (6 + 1 + 16)) with 23%nat.
  change (Z.to_nat (6 + 1 + 16 + 12 - (6 + 1 + 16))) with 12%nat.
  change (Z.to_nat (6 + 1 + 16 + 12)) with 35%nat.
  change (Z.to_nat (6 + 1 + 16 + 12 + 4 - (6 + 1 + 16 + 12))) with 4%nat.
  change (Z.to_nat (6 + 1 + 16 + 12 + 4)) with 39%nat.
  cbn [skipn firstn nth].
  rewrite bytes_eqb_refl. cbn [negb].
  rewrite Hd.
  replace (Z.to_nat (6 + 1 + 16 + 12 + 4 + blen meta_bytes -
                     (6 + 1 + 16 + 12 + 4)))
    with (List.length meta_bytes) by (unfold blen; lia).
  replace (Z.to_nat (6 + 1 + 16 + 12 + 4 + blen meta_bytes))
    with (List.length meta_bytes + 39)%nat by (unfold blen; lia).
  rewrite firstn_app, firstn_all, Nat.sub_diag. cbn [firstn].
  rewrite app_nil_r.
  rewrite <- skipn_skipn. cbn [skipn].
  rewrite skipn_app, skipn_all, Nat.sub_diag. cbn [skipn app].
  rewrite Z_of_byte_of_Z.
  unfold cipher_of_id.
  destruct Ha as [-> | ->]; reflexivity.
Qed.

Lemma urandom_length n w : List.length (fst (urandom n w)) = n.
Proof. cbn [urandom fst]. now rewrite length_map, length_seq. Qed.

End EnvelopeFacts.

Section EnvelopeRoundTrip.
Import Crypto.
Context {E : Externals} {EOk : ExternalsOk E}.

(** What [encrypt_blob_v1] returns. *)
Lemma encrypt_blob_v1_ok plaintext password algorithm meta w :
  password <> "" ->
  algorithm = "aes-256-gcm" \/ algorithm = "chacha20-poly1305" ->
  blen (json_dumps (tagged meta algorithm)) < 2 ^ 32 ->
  let salt := fst (urandom 16 w) in
  let nonce := fst (urandom 12 (snd (urandom 16 w))) in
  let alg_id := if String.eqb algorithm "aes-256-gcm"
                then _ALG_AESGCM else _ALG_CHACHA20 in
  let meta_bytes := json_dumps (tagged meta algorithm) in
  encrypt_blob_v1 plaintext password algorithm meta w
  = Ok (envelope alg_id salt nonce meta_bytes
          (aead_encrypt (cipher_of_id alg_id) (_kdf_scrypt password salt) nonce
             plaintext meta_bytes),
        snd (urandom 12 (snd (urandom 16 w)))).
Proof.
  intros Hpw Ha Hlen. cbv zeta. unfold encrypt_blob_v1.
  replace (String.eqb password "") with false
    by (symmetry; now apply String.eqb_neq).
  replace (strip (lower algorithm)) with algorithm
    by (destruct Ha as [->| ->]; reflexivity).
  replace (mem_string algorithm ["aes-256-gcm"; "chacha20-poly1305"]) with true
    by (destruct Ha as [->| ->]; reflexivity).
  cbn [negb].
  destruct (urandom 16 w) as [salt w1]. cbn [fst snd].
  destruct (urandom 12 w1) as [nonce w2]. cbn [fst snd].
  fold (tagged meta algorithm).
  replace (2 ^ 32 - 1 <? blen (json_dumps (tagged meta algorithm))) with false
    by (symmetry; apply Z.ltb_ge; lia).
  destruct Ha as [->| ->]; reflexivity.
Qed.

Lemma tagged_get meta algorithm k :
  dict_get k (tagged meta algorithm)
  = if String.eqb k "alg" then Some (VStr algorithm)
    else if String.eqb k "kdf" then Some (VStr "scrypt")
    else dict_get k meta.
Proof. unfold tagged. now rewrite !dict_get_set. Qed.

End EnvelopeRoundTrip.




(** ** The precision planner *)

Section PlannerFacts.
Import Constants.
Context {E : Externals}.

(** An integer below 2^53 scaled by a power of two rounds to itself. *)
Lemma round_exact a j :
  0 < a < 2 ^ 53 -> 0 <= j ->
  Binary.round 53 (Some (-1074)) (a * 2 ^ j) (2 ^ j)
  = (a * 2 ^ (52 - Z.log2 a), - (52 - Z.log2 a)).
Proof.
  intros Ha Hj.
  pose proof (Z.log2_nonneg a) as HL0.
  assert (HL : Z.log2 a < 53) by (apply Z.log2_lt_pow2; lia).
  pose proof (Z.log2_spec a ltac:(lia)) as [Hlo _].
  assert (Hj2 : 0 < 2 ^ j) by (apply Z.pow_pos_nonneg; lia).
  unfold Binary.round, Binary.ilog2_rat.
  rewrite Z.log2_mul_pow2, Z.log2_pow2 by lia.
  replace (j + Z.log2 a - j) with (Z.log2 a) by lia.
  rewrite (Z.max_r 0 (Z.log2 a)) by lia.
  rewrite (Z.max_l 0 (- Z.log2 a)) by lia.
  replace (2 ^ j * 2 ^ Z.log2 a <=? a * 2 ^ j * 2 ^ 0) with true
    by (symmetry; apply Z.leb_le; change (2 ^ 0) with 1; nia).
  replace (Z.max (Z.log2 a - (53 - 1)) (-1074)) with (- (52 - Z.log2 a)) by lia.
  rewrite (Z.max_r 0 (- - (52 - Z.log2 a))) by lia.
  rewrite (Z.max_l 0 (- (52 - Z.log2 a))) by lia.
  change (2 ^ 0) with 1. rewrite Z.mul_1_r, Z.opp_involutive.
  set (k := 52 - Z.log2 a).
  replace (a * 2 ^ j * 2 ^ k) with (a * 2 ^ k * 2 ^ j) by ring.
  rewrite Z.div_mul, Z.mod_mul by lia.
  replace (2 ^ j <? 2 * 0) with false by (symmetry; apply Z.ltb_ge; lia).
  replace (2 * 0 =? 2 ^ j) with false by (symmetry; apply Z.eqb_neq; lia).
  reflexivity.
Qed.

Lemma round_rat_exact n j :
  0 < Z.abs n < 2 ^ 53 -> 0 <= j ->
  Float.round_rat (n * 2 ^ j) (2 ^ j)
  = Float.Finite (Float.mkFin (n * 2 ^ (52 - Z.log2 (Z.abs n)))
                              (- (52 - Z.log2 (Z.abs n)))).
Proof.
  intros Hn Hj. unfold Float.round_rat.
  assert (Hj2 : 0 < 2 ^ j) by (apply Z.pow_pos_nonneg; lia).
  replace (n * 2 ^ j =? 0) with false by (symmetry; apply Z.eqb_neq; nia).
  rewrite Z.abs_mul, (Z.abs_eq (2 ^ j)) by lia.
  rewrite round_exact by assumption.
  pose proof (Z.log2_nonneg (Z.abs n)) as HL0.
  assert (HL : Z.log2 (Z.abs n) < 53) by (apply Z.log2_lt_pow2; lia).
  set (k := 52 - Z.log2 (Z.abs n)) in *.
  assert (Hk : 0 < 2 ^ k) by (apply Z.pow_pos_nonneg; lia).
  replace (2 ^ 1024 <=? Z.abs n * 2 ^ k * 2 ^ (- k)) with false.
  - rewrite Z.sgn_mul, (Z.sgn_pos (2 ^ j)), Z.mul_1_r by lia.
    do 2 f_equal. rewrite Z.mul_assoc. f_equal.
    rewrite Z.mul_comm. apply Z.abs_sgn.
  - symmetry. apply Z.leb_gt.
    destruct (Z.eq_dec k 0) as [->|Hk0].
    + change (2 ^ 0) with 1. change (2 ^ (- 0)) with 1.
      assert (2 ^ 53 < 2 ^ 1024) by (apply Z.pow_lt_mono_r; lia). lia.
    + rewrite (Z.pow_neg_r 2 (- k)) by lia. rewrite Z.mul_0_r.
      apply Z.pow_pos_nonneg; lia.
Qed.

(** With [math.log10(base) = 1.0] the planner is exact on every integer
    that a double represents exactly. *)
Lemma compute_precision_log10_one digits base guard :
  0 < base -> math_log10 base = Float.mkFin 1 0 -> Z.abs digits < 2 ^ 53 ->
  compute_precision digits base guard = Ok (digits + guard).
Proof.
  intros Hb Hlg Hd. unfold compute_precision, log10.
  replace (base <=? 0) with false by (symmetry; apply Z.leb_gt; lia).
  rewrite Hlg. cbn [bind].
  destruct (Z.eq_dec digits 0) as [->|Hnz]; [reflexivity|].
  unfold Float.of_int.
  pose proof (round_rat_exact digits 0 ltac:(lia) ltac:(lia)) as R.
  change (2 ^ 0) with 1 in R. rewrite Z.mul_1_r in R. rewrite R. cbn [bind].
  pose proof (Z.log2_nonneg (Z.abs digits)) as HL0.
  assert (HL : Z.log2 (Z.abs digits) < 53) by (apply Z.log2_lt_pow2; lia).
  set (k := 52 - Z.log2 (Z.abs digits)) in *.
  assert (Hk : 0 < 2 ^ k) by (apply Z.pow_pos_nonneg; lia).
  unfold Float.mul. cbn [Float.fm Float.fe].
  rewrite Z.add_0_r, Z.opp_involutive, Z.mul_1_r.
  rewrite (Z.max_l 0 (- k)), (Z.max_r 0 k) by lia.
  change (2 ^ 0) with 1. rewrite Z.mul_1_r.
  pose proof (round_rat_exact digits k ltac:(lia) ltac:(lia)) as R2.
  fold k in R2. rewrite R2.
  unfold Float.ceil. cbn [Float.fm Float.fe bind].
  rewrite Z.opp_involutive.
  rewrite (Z.max_l 0 (- k)), (Z.max_r 0 k) by lia.
  change (2 ^ 0) with 1. rewrite Z.mul_1_r.
  rewrite <- Z.mul_opp_l, Z.div_mul by lia.
  now rewrite Z.opp_involutive.
Qed.

(** Nothing in the planner looks at the sign of [digits]: for a positive
    base the only exception it can raise is the float conversion's
    OverflowError. *)
Lemma compute_precision_raises_only_overflow digits base guard e :
  0 < base -> compute_precision digits base guard = Raise e -> e = OverflowError.
Proof.
  intros Hb. unfold compute_precision, log10.
  replace (base <=? 0) with false by (symmetry; apply Z.leb_gt; lia).
  cbn [bind]. unfold Float.of_int.
  destruct (Float.round_rat digits 1) as [x|]; cbn [bind]; [|congruence].
  unfold Float.ceil. destruct (Float.mul x (math_log10 base)); cbn [bind];
    congruence.
Qed.

Lemma compute_precision_value digits base guard x y :
  0 < base -> Float.of_int digits = Ok x ->
  Float.mul x (math_log10 base) = Float.Finite y ->
  compute_precision digits base guard
  = Ok (- ((- (Float.fm y * 2 ^ Z.max 0 (Float.fe y))) / 2 ^ Z.max 0 (- Float.fe y))
        + guard).
Proof.
  intros Hb Hx Hy. unfold compute_precision, log10.
  replace (base <=? 0) with false by (symmetry; apply Z.leb_gt; lia).
  cbn [bind]. rewrite Hx. cbn [bind]. rewrite Hy. reflexivity.
Qed.

End PlannerFacts.




(** ** The verification oracle *)

Section VerifyFacts.
Import Verify.
Context {E : Externals}.

Lemma next_never_raises fuel s e :
  Spigot.positive_state s -> Spigot.next fuel s <> Raise e.
Proof.
  revert s. induction fuel as [|fuel IH]; intros s P; [discriminate|].
  cbn [Spigot.next].
  destruct (step_defined s P) as (o & s' & Hs). rewrite Hs. cbn [bind].
  destruct o; [discriminate|]. apply IH. eapply step_preserves; eauto.
Qed.

Lemma next_positive fuel s d s' :
  Spigot.positive_state s -> Spigot.next fuel s = Ok (d, s') -> Spigot.positive_state s'.
Proof.
  revert s. induction fuel as [|fuel IH]; intros s P; [discriminate|].
  cbn [Spigot.next].
  destruct (step_defined s P) as (o & s1 & Hs). rewrite Hs. cbn [bind].
  pose proof (step_preserves _ _ _ P Hs) as P1.
  destruct o; [|now apply IH]. intros H. apply Ok_inj, pair_equal_spec in H.
  destruct H as [_ <-]. assumption.
Qed.

Lemma take_never_raises fuel count s e :
  Spigot.positive_state s -> Spigot.take fuel count s <> Raise e.
Proof.
  revert s. induction count as [|count IH]; intros s P; [discriminate|].
  cbn [Spigot.take].
  destruct (Spigot.next fuel s) as [[d s1]| |] eqn:Hn; cbn [bind].
  - pose proof (next_positive _ _ _ _ P Hn) as P1.
    destruct (Spigot.take fuel count s1) as [[ds s2]| |] eqn:Ht; cbn [bind];
      try discriminate.
    intros H. injection H as ->. eapply IH; eauto.
  - intros H. injection H as ->. eapply next_never_raises; eauto.
  - discriminate.
Qed.

Lemma init_positive : Spigot.positive_state Spigot.init.
Proof. unfold Spigot.positive_state; cbn; lia. Qed.

Lemma _pi_spigot_prefix_never_raises fuel count e :
  _pi_spigot_prefix fuel count <> Raise e.
Proof.
  unfold _pi_spigot_prefix.
  destruct (Spigot.next fuel Spigot.init) as [[d g]| |] eqn:Hn; cbn [bind].
  - pose proof (next_positive _ _ _ _ init_positive Hn) as P.
    destruct (Spigot.take fuel (Z.to_nat count) g) as [[ds s2]| |] eqn:Ht;
      cbn [bind]; try discriminate.
    intros H. injection H as ->. eapply take_never_raises; eauto.
  - intros H. injection H as ->.
    eapply next_never_raises; eauto using init_positive.
  - discriminate.
Qed.

(** Fewer calls of [next] yield a prefix of the digits. *)
Lemma take_prefix fuel n m s ds s' :
  Spigot.take fuel (n + m) s = Ok (ds, s') ->
  exists s'', Spigot.take fuel n s = Ok (firstn n ds, s'').
Proof.
  revert s ds. induction n as [|n IH]; intros s ds H.
  - eexists. reflexivity.
  - cbn [Nat.add Spigot.take] in *.
    destruct (Spigot.next fuel s) as [[d s1]| |]; cbn [bind] in *;
      try discriminate.
    destruct (Spigot.take fuel (n + m) s1) as [[ds1 s2]| |] eqn:Ht;
      cbn [bind] in *; try discriminate.
    apply Ok_inj, pair_equal_spec in H. destruct H as [<- Hs]. subst s2.
    destruct (IH _ _ Ht) as [s'' ->]. cbn [bind firstn]. eauto.
Qed.

Lemma _pi_spigot_prefix_50 (count : nat) (extra : nat) :
  (count <= 50)%nat ->
  _pi_spigot_prefix (10 + extra) (Z.of_nat count)
  = Ok (substring 0 count pi_fraction_50).
Proof.
  intros Hc. unfold _pi_spigot_prefix.
  pose (s1 := Spigot.mkState 10 (-30) 3 2 0 5).
  assert (Hn : Spigot.next 10 Spigot.init = Ok (3, s1)) by reflexivity.
  rewrite (next_fuel_mono _ _ _ Hn). cbn [bind]. rewrite Nat2Z.id.
  assert (Ht : exists s', Spigot.take 10 50 s1 = Ok (tl Spigot.first_51, s'))
    by (vm_compute; eexists; reflexivity).
  destruct Ht as [s' Ht].
  replace 50%nat with (count + (50 - count))%nat in Ht by lia.
  destruct (take_prefix _ _ _ _ _ _ Ht) as [s'' Hp].
  rewrite (take_fuel_mono _ _ _ _ Hp). cbn [bind]. f_equal.
  clear - Hc.
  do 51 (destruct count as [|count]; [reflexivity|]). lia.
Qed.

Lemma zrange_firstn lo n m :
  (n <= m)%nat ->
  zrange lo (lo + Z.of_nat n) = firstn n (zrange lo (lo + Z.of_nat m)).
Proof.
  intros H. unfold zrange.
  replace (Z.to_nat (lo + Z.of_nat n - lo)) with n by lia.
  replace (Z.to_nat (lo + Z.of_nat m - lo)) with m by lia.
  rewrite firstn_map. f_equal.
  replace m with (n + (m - n))%nat at 1 by lia.
  rewrite seq_app, firstn_app, length_seq, Nat.sub_diag, firstn_all2
    by (rewrite length_seq; lia).
  cbn [firstn]. now rewrite app_nil_r.
Qed.

End VerifyFacts.

Section VerifyTheorem.
Import Verify.
Context {E : Externals}.

Lemma substring_length n s :
  (n <= String.length s)%nat -> String.length (substring 0 n s) = n.
Proof.
  revert s. induction n as [|n IH]; intros s H.
  - destruct s; reflexivity.
  - destruct s as [|c s]; cbn in H; [lia|].
    cbn [substring String.length]. rewrite IH by lia. reflexivity.
Qed.

Lemma pi_hex_digits_16 (count : nat) :
  (count <= 16)%nat ->
  Bbp.pi_hex_digits 0 (Z.of_nat count)
  = Ok (substring 0 count "243F6A8885A308D3").
Proof.
  intros Hc. unfold Bbp.pi_hex_digits.
  change (0 <? 0) with false.
  replace (Z.of_nat count <? 0) with false by (symmetry; apply Z.ltb_ge; lia).
  cbv iota.
  change (fun i => d <- Bbp.pi_hex_digit (0 + i) ;; str_index "0123456789ABCDEF" d)
    with (fun i => d <- Bbp.pi_hex_digit i ;; str_index "0123456789ABCDEF" d).
  assert (D : map Bbp.pi_hex_digit (zrange 0 (Z.of_nat count))
              = map Ok (firstn count Bbp.hex_prefix)).
  { pose proof (zrange_firstn 0 count 16 Hc) as Z0.
    change (0 + Z.of_nat count) with (Z.of_nat count) in Z0.
    change (0 + Z.of_nat 16) with 16 in Z0.
    rewrite Z0, <- !firstn_map. rewrite hex_digits_0_15. reflexivity. }
  rewrite (mapM_compose Bbp.pi_hex_digit (str_index "0123456789ABCDEF")
             (zrange 0 (Z.of_nat count)) (firstn count Bbp.hex_prefix) D).
  clear - Hc.
  do 17 (destruct count as [|count]; [reflexivity|]). lia.
Qed.

Lemma verify_skip fuel constant_name expr base samples candidate :
  samples <= 0 ->
  verify_fractional_digits fuel constant_name expr base samples candidate
  = Ok (true, "verification skipped").
Proof.
  intros H. unfold verify_fractional_digits.
  now replace (samples <=? 0) with true by (symmetry; apply Z.leb_le; lia).
Qed.

Lemma verify_pi10 fuel expr samples candidate :
  0 < samples ->
  verify_fractional_digits fuel "Pi (π)" expr 10 samples candidate
  = (expected <- _pi_spigot_prefix fuel (Z.min samples (slen candidate)) ;;
     Ok (String.eqb expected
           (substring 0 (String.length expected) candidate), "pi spigot")).
Proof.
  intros H. unfold verify_fractional_digits.
  now replace (samples <=? 0) with false by (symmetry; apply Z.leb_gt; lia).
Qed.

Lemma verify_pi16 fuel expr samples candidate :
  0 < samples ->
  verify_fractional_digits fuel "Pi (π)" expr 16 samples candidate
  = (expected <- Bbp.pi_hex_digits 0 (Z.min samples (slen candidate)) ;;
     Ok (String.eqb expected
           (upper (substring 0 (Z.to_nat (Z.min samples (slen candidate)))
                     candidate)), "pi bbp")).
Proof.
  intros H. unfold verify_fractional_digits.
  now replace (samples <=? 0) with false by (symmetry; apply Z.leb_gt; lia).
Qed.

Lemma verify_other fuel constant_name expr base samples candidate :
  0 < samples ->
  String.eqb constant_name "Pi (π)" && ((base =? 10) || (base =? 16)) = false ->
  verify_fractional_digits fuel constant_name expr base samples candidate
  = (expected <- _mp_prefix constant_name expr base
                   (Z.min samples (slen candidate)) ;;
     Ok (String.eqb expected
           (substring 0 (String.length expected) candidate), "mp stability")).
Proof.
  intros H Hp. unfold verify_fractional_digits.
  replace (samples <=? 0) with false by (symmetry; apply Z.leb_gt; lia).
  destruct (String.eqb constant_name "Pi (π)"); cbn [andb] in *.
  - apply orb_false_iff in Hp. destruct Hp as [-> ->]. reflexivity.
  - reflexivity.
Qed.

Lemma _mp_prefix_unknown constant_name expr base samples :
  0 < base -> Z.abs samples < 2 ^ 53 ->
  String.eqb constant_name "Custom" = false ->
  mem_string constant_name Constants.constants_map = false ->
  _mp_prefix constant_name expr base samples = Raise (KeyError constant_name) \/
  _mp_prefix constant_name expr base samples = Raise OverflowError.
Proof.
  intros Hb Hs Hc Hm. unfold _mp_prefix.
  destruct (Constants.compute_precision samples base 60) as [p|e|] eqn:Hp;
    cbn [bind].
  - left. now rewrite Hc, Hm.
  - right. f_equal. eapply compute_precision_raises_only_overflow; eauto.
  - exfalso. revert Hp. unfold Constants.compute_precision, Constants.log10.
    destruct (base <=? 0); cbn [bind]; [discriminate|].
    unfold Float.of_int. destruct (Float.round_rat samples 1); cbn [bind];
      [|discriminate].
    unfold Float.ceil. destruct (Float.mul _ _); discriminate.
Qed.

End VerifyTheorem.



